(** * Country ratings backend: validator and aggregator

    Shallow embedding of [main.py]: the pydantic model [CountryRatingIn]
    with its [validate_slug] field validator, and the two statistics
    endpoints [ratings_summary] and [country_rating_stats], whose
    aggregation pipelines are interpreted over the [countryrating]
    collection. *)

From Stdlib Require Import Bool List Ascii String NArith ZArith.
From Stdlib Require Import QArith Qround Qabs Lqa.
From Stdlib Require Import Lia Sorted Permutation.
Import ListNotations.

Local Open Scope string_scope.

(** ** Python strings

    A [str] is a sequence of code points.  The embedding works with the
    code points U+0000..U+00FF (the Latin-1 block) and, from beyond that
    block, U+211D (DOUBLE-STRUCK CAPITAL R), one of the letters that
    [str.isupper] counts as upper-case and [str.lower] leaves as they
    are.  The character tables below are those of CPython's
    [str.isspace], [str.isupper], [str.isalnum] and [str.lower] on these
    code points, and [str.lower] maps each of them to one of them. *)
Module Py.

Inductive char : Type :=
| Latin1 (a : ascii)
| DoubleStruckR.

Definition ord (ch : char) : N :=
  match ch with
  | Latin1 a => N_of_ascii a
  | DoubleStruckR => 8477
  end.

Definition chr (n : N) : char :=
  if (n =? 8477)%N then DoubleStruckR else Latin1 (ascii_of_N n).

Definition between (lo hi : N) (ch : char) : bool :=
  ((lo <=? ord ch) && (ord ch <=? hi))%N.

(** [ch.isspace()]: TAB..CR, FS..US, SPACE, NEL, NBSP. *)
Definition isspace (ch : char) : bool :=
  between 9 13 ch || between 28 32 ch || between 133 133 ch
  || between 160 160 ch.

(** The characters with a lower-case form of their own: A..Z,
    U+00C0..U+00D6, U+00D8..U+00DE. *)
Definition has_lower (ch : char) : bool :=
  between 65 90 ch || between 192 214 ch || between 216 222 ch.

(** [ch.isupper()]: the characters above, and U+211D. *)
Definition isupper (ch : char) : bool :=
  has_lower ch || between 8477 8477 ch.

(** [ch.isalnum()]: decimal digits and ASCII letters, and also the
    letters and numeric characters beyond ASCII (U+00AA, U+00B2,
    U+00B3, U+00B5, U+00B9, U+00BA, U+00BC..U+00BE, U+00C0..U+00D6,
    U+00D8..U+00F6, U+00F8..U+00FF, U+211D). *)
Definition isalnum (ch : char) : bool :=
  between 48 57 ch || between 65 90 ch || between 97 122 ch
  || between 170 170 ch || between 178 179 ch || between 181 181 ch
  || between 185 186 ch || between 188 190 ch || between 192 214 ch
  || between 216 246 ch || between 248 255 ch || between 8477 8477 ch.

(** [ch.lower()] for one character: the lower-case form sits 32
    positions above; a character without one is left as it is. *)
Definition lower_char (ch : char) : char :=
  if has_lower ch then chr (ord ch + 32) else ch.

(** [ch == other] for characters. *)
Definition char_eqb (a b : char) : bool := (ord a =? ord b)%N.

Inductive str : Type :=
| EmptyStr
| Str (ch : char) (r : str).

(** A literal of Latin-1 characters. *)
Fixpoint of_string (s : string) : str :=
  match s with
  | EmptyString => EmptyStr
  | String a r => Str (Latin1 a) (of_string r)
  end.

(** [s == t] *)
Fixpoint eqb (s t : str) : bool :=
  match s, t with
  | EmptyStr, EmptyStr => true
  | Str a r, Str b r' => char_eqb a b && eqb r r'
  | _, _ => false
  end.

(** [len(s)] *)
Fixpoint len (s : str) : nat :=
  match s with
  | EmptyStr => 0
  | Str _ r => S (len r)
  end.

(** [s.lower()] *)
Fixpoint lower (s : str) : str :=
  match s with
  | EmptyStr => EmptyStr
  | Str ch r => Str (lower_char ch) (lower r)
  end.

(** [s.lstrip()] *)
Fixpoint lstrip (s : str) : str :=
  match s with
  | EmptyStr => EmptyStr
  | Str ch r => if isspace ch then lstrip r else s
  end.

(** [s.rstrip()] *)
Fixpoint rstrip (s : str) : str :=
  match s with
  | EmptyStr => EmptyStr
  | Str ch r =>
      match rstrip r with
      | EmptyStr => if isspace ch then EmptyStr else Str ch EmptyStr
      | r' => Str ch r'
      end
  end.

(** [s.strip()] *)
Definition strip (s : str) : str := rstrip (lstrip s).

(** Truth value of a string: [bool(s)]. *)
Definition truthy (s : str) : bool :=
  match s with EmptyStr => false | Str _ _ => true end.

(** The characters of a string, as the one-character strings a [for]
    loop over it yields. *)
Fixpoint chars (s : str) : list char :=
  match s with
  | EmptyStr => []
  | Str ch r => ch :: chars r
  end.

(** [any(iterable)] over one-character strings. *)
Definition any (l : list char) : bool :=
  existsb (fun ch => truthy (Str ch EmptyStr)) l.

(** Python [float] values: the finite ones carry their exact rational
    value; comparisons follow IEEE 754, where every comparison with NaN
    is false. *)
Inductive float : Type :=
| Finite (q : Q)
| PosInf
| NegInf
| NaN.

Definition float_le (a b : float) : bool :=
  match a, b with
  | NaN, _ | _, NaN => false
  | NegInf, _ => true
  | _, PosInf => true
  | Finite x, Finite y => Qle_bool x y
  | _, _ => false
  end.

Definition float_lt (a b : float) : bool :=
  match a, b with
  | NaN, _ | _, NaN => false
  | PosInf, _ => false
  | _, NegInf => false
  | Finite x, Finite y => negb (Qle_bool y x)
  | _, _ => true
  end.

Definition float_ge (a b : float) : bool := float_le b a.

Definition float_gt (a b : float) : bool := float_lt b a.

Definition isfinite (a : float) : bool :=
  match a with Finite _ => true | _ => false end.

End Py.

(** Literals of Latin-1 characters are read as Python strings. *)
Coercion Py.Latin1 : ascii >-> Py.char.
Coercion Py.of_string : string >-> Py.str.

(** ** Rating validator *)

(** [raise ValueError(msg)] inside a field validator. *)
Record ValueError : Type := mkValueError { ve_msg : string }.

(** One entry of a pydantic [ValidationError]: the field it is located
    at and its message. *)
Record ErrorDetails : Type := mkErrorDetails { loc : string; msg : string }.

Definition ValidationError : Type := list ErrorDetails.

Module CountryRatingIn.

Record t : Type := mk {
  country_slug : Py.str;
  rating : Py.float;
  user_id : option Py.str;
  comment : option Py.str
}.

(** The hyphen of [ch in ["-"]]. *)
Definition hyphen : Py.char := Py.Latin1 "-".

(** [validate_slug], lines 26-32. *)
Definition validate_slug (v : Py.str) : ValueError + Py.str :=
  let sv := Py.lower (Py.strip v) in
  if negb (Py.truthy sv)
     || Py.any (filter (fun ch => negb (Py.isalnum ch || Py.char_eqb ch hyphen))
                       (Py.chars sv))
  then inl (mkValueError
              "country_slug must be kebab-case, alphanumeric with hyphens")
  else inr sv.

(** Constraints [Field(..., ge=0, le=5)] on [rating]: the value is kept
    when [rating <= 5] and [rating >= 0] both evaluate to true. *)
Definition check_rating (r : Py.float) : ErrorDetails + Py.float :=
  if negb (Py.float_le r (Py.Finite 5))
  then inl (mkErrorDetails "rating" "Input should be less than or equal to 5")
  else if negb (Py.float_ge r (Py.Finite 0))
  then inl (mkErrorDetails "rating"
              "Input should be greater than or equal to 0")
  else inr r.

(** Errors of one field, as pydantic collects them. *)
Definition field_errors {A B : Type} (wrap : A -> ErrorDetails)
    (res : A + B) : ValidationError :=
  match res with inl e => [wrap e] | inr _ => [] end.

(** Model validation: every field is validated, the errors of all
    fields are collected in declaration order, and the model is built
    from the validated values when there is none. *)
Definition validate (raw : t) : ValidationError + t :=
  let slug := validate_slug (country_slug raw) in
  let rate := check_rating (rating raw) in
  match slug, rate with
  | inr sv, inr r => inr (mk sv r (user_id raw) (comment raw))
  | _, _ =>
      inl (field_errors
             (fun e => mkErrorDetails "country_slug"
                         ("Value error, " ++ ve_msg e)) slug
           ++ field_errors (fun e => e) rate)%list
  end.

End CountryRatingIn.

(** ** The document store

    The [countryrating] collection holds one document per accepted
    submission.  A document is modelled with the fields the pipelines of
    this program read or produce; an absent (or null) field is [None]. *)
Module Mongo.

Record document : Type := mkdoc {
  _id : option Py.str;
  country_slug : option Py.str;
  rating : option Q;
  count : option Z;
  avg : option Q
}.

(** The pipeline stages written in [main.py]. *)
Inductive stage : Type :=
| Smatch (slug : Py.str)
    (* {"$match": {"country_slug": slug}} *)
| Sgroup
    (* {"$group": {"_id": "$country_slug", "count": {"$sum": 1},
                   "avg": {"$avg": "$rating"}}} *)
| Sproject
    (* {"$project": {"_id": 0, "country_slug": "$_id", "count": 1,
                     "avg": {"$round": ["$avg", 3]}}} *)
| Ssort
    (* {"$sort": {"avg": -1}} *)
| Slimit (n : Z).
    (* {"$limit": n} *)

Definition key_eqb (a b : option Py.str) : bool :=
  match a, b with
  | Some x, Some y => Py.eqb x y
  | None, None => true
  | _, _ => false
  end.

(** The distinct keys of a sequence, in order of first occurrence. *)
Fixpoint distinct (ks : list (option Py.str)) : list (option Py.str) :=
  match ks with
  | [] => []
  | k :: r => k :: filter (fun k' => negb (key_eqb k k')) (distinct r)
  end.

Fixpoint somes {A : Type} (l : list (option A)) : list A :=
  match l with
  | [] => []
  | Some x :: r => x :: somes r
  | None :: r => somes r
  end.

Definition Qsum (l : list Q) : Q := fold_right Qplus 0%Q l.

(** The mean of a non-empty sequence. *)
Definition mean (xs : list Q) : Q :=
  (Qsum xs / inject_Z (Z.of_nat (List.length xs)))%Q.

(** [$avg]: the mean of the numeric values, null when there is none. *)
Definition avg_acc (vs : list (option Q)) : option Q :=
  match somes vs with
  | [] => None
  | xs => Some (mean xs)
  end.

(** Nearest integer, ties to the even one. *)
Definition round_half_even (x : Q) : Z :=
  let f := Qfloor x in
  match (x - inject_Z f ?= 1 # 2)%Q with
  | Lt => f
  | Gt => (f + 1)%Z
  | Eq => if Z.even f then f else (f + 1)%Z
  end.

(** [{"$round": [x, place]}] for a place [>= 0]. *)
Definition round (x : Q) (place : nat) : Q :=
  let scale := (10 ^ Z.of_nat place)%Z in
  Qred (Qmake (round_half_even (x * inject_Z scale)) (Z.to_pos scale)).

(** [$match] on the slug. *)
Definition match_slug (slug : Py.str) (docs : list document) : list document :=
  filter (fun d => key_eqb (country_slug d) (Some slug)) docs.

(** The members of the group of key [k]. *)
Definition members (k : option Py.str) (docs : list document) : list document :=
  filter (fun d => key_eqb (country_slug d) k) docs.

(** [$group]: one document per distinct value of [country_slug], with
    the number of its members and the mean of their ratings. *)
Definition group (docs : list document) : list document :=
  map (fun k =>
         let ms := members k docs in
         mkdoc k None None
               (Some (Z.of_nat (List.length ms)))
               (avg_acc (map rating ms)))
      (distinct (map country_slug docs)).

(** [$project]: [_id] dropped, [country_slug] taken from [_id], [count]
    kept, [avg] rounded to three places. *)
Definition project (d : document) : document :=
  mkdoc None (_id d) None (count d)
        (option_map (fun a => round a 3) (avg d)).

(** Order of the [avg] values for [$sort]; null sorts lowest. *)
Definition avg_leb (a b : option Q) : bool :=
  match a, b with
  | None, _ => true
  | Some _, None => false
  | Some x, Some y => Qle_bool x y
  end.

Fixpoint insert_desc (d : document) (l : list document) : list document :=
  match l with
  | [] => [d]
  | e :: r => if avg_leb (avg e) (avg d) then d :: l else e :: insert_desc d r
  end.

(** [$sort] by [avg] descending.  The store leaves the order of equal
    keys open; here they keep their input order. *)
Definition sort_desc (docs : list document) : list document :=
  fold_right insert_desc [] docs.

Definition run_stage (docs : list document) (s : stage) : list document :=
  match s with
  | Smatch slug => match_slug slug docs
  | Sgroup => group docs
  | Sproject => map project docs
  | Ssort => sort_desc docs
  | Slimit n => firstn (Z.to_nat n) docs
  end.

(** [collection.aggregate(pipeline)], for a store that answers: the
    stages are run in order on the documents of the collection. *)
Definition aggregate (coll : list document) (pipeline : list stage)
  : list document :=
  fold_left run_stage pipeline coll.

End Mongo.

(** Modelled from the spec: [create_document] of the [database] module,
    which writes the accepted submissions, is not part of [main.py].  A
    persisted rating record holds the validated fields and the creation
    identity the store assigns at insertion (data model, RatingRecord);
    the collection is the sequence of the documents of such records. *)
Module RatingRecord.

Record t : Type := mk {
  id : Py.str;
  country_slug : Py.str;
  rating : Q;
  user_id : option Py.str;
  comment : option Py.str
}.

Definition to_document (r : t) : Mongo.document :=
  Mongo.mkdoc (Some (id r)) (Some (country_slug r)) (Some (rating r))
              None None.

(** The collection holding the records [rs]. *)
Definition stored (rs : list t) : list Mongo.document := map to_document rs.

(** The ratings of the records of one slug. *)
Definition ratings_of (slug : Py.str) (rs : list t) : list Q :=
  map rating (filter (fun r => Py.eqb (country_slug r) slug) rs).

End RatingRecord.

(** ** Aggregator *)

(** The [detail] of an [HTTPException]: a literal of [main.py], or
    [str(e)] of the exception [e] that was caught. *)
Inductive Detail : Type :=
| Literal (s : string)
| StrOf (e : ValidationError).

Record HTTPException : Type := mkHTTPException {
  status_code : Z;
  detail : Detail
}.

Module CountryRatingStats.

Record t : Type := mk {
  country_slug : Py.str;
  count : Z;
  avg : Q
}.

(** The error of a field whose value is null. *)
Definition missing {A : Type} (field kind : string) (v : option A)
  : ValidationError :=
  match v with
  | Some _ => []
  | None => [mkErrorDetails field ("Input should be a valid " ++ kind)]
  end.

(** The model built from the keys of a result dict [r], as the
    keyword-argument call of line 139 does. *)
Definition of_dict (r : Mongo.document) : ValidationError + t :=
  match Mongo.country_slug r, Mongo.count r, Mongo.avg r with
  | Some s, Some c, Some a => inr (mk s c a)
  | s, c, a =>
      inl (missing "country_slug" "string" s ++ missing "count" "integer" c
           ++ missing "avg" "number" a)%list
  end.

(** The list comprehension of line 121. *)
Fixpoint of_dicts (results : list Mongo.document) : ValidationError + list t :=
  match results with
  | [] => inr []
  | r :: rest =>
      match of_dict r with
      | inl e => inl e
      | inr s =>
          match of_dicts rest with
          | inl e => inl e
          | inr l => inr (s :: l)
          end
      end
  end.

End CountryRatingStats.

Definition unavailable : HTTPException :=
  mkHTTPException 500 (Literal "Database not available").

(** Truth value of an [Optional[int]]. *)
Definition truthy_limit (limit : option Z) : bool :=
  match limit with
  | None => false
  | Some n => negb (n =? 0)%Z
  end.

(** [ratings_summary], lines 106-123.  [db] is the database handle, with
    the content of its [countryrating] collection. *)
Definition ratings_summary (db : option (list Mongo.document))
    (limit : option Z) : HTTPException + list CountryRatingStats.t :=
  match db with
  | None => inl unavailable
  | Some coll =>
      let pipeline := [Mongo.Sgroup; Mongo.Sproject; Mongo.Ssort] in
      let pipeline :=
        match limit with
        | Some n =>
            if truthy_limit limit && true && (0 <? n)%Z
            then (pipeline ++ [Mongo.Slimit n])%list
            else pipeline
        | None => pipeline
        end in
      let results := Mongo.aggregate coll pipeline in
      match CountryRatingStats.of_dicts results with
      | inr l => inr l
      | inl e => inl (mkHTTPException 500 (StrOf e))
      end
  end.

(** [country_rating_stats], lines 126-141. *)
Definition country_rating_stats (db : option (list Mongo.document))
    (country_slug : Py.str) : HTTPException + CountryRatingStats.t :=
  match db with
  | None => inl unavailable
  | Some coll =>
      let agg :=
        Mongo.aggregate coll
          [Mongo.Smatch country_slug; Mongo.Sgroup; Mongo.Sproject] in
      match agg with
      | [] => inr (CountryRatingStats.mk country_slug 0 0)
      | r :: _ =>
          match CountryRatingStats.of_dict r with
          | inr s => inr s
          | inl e => inl (mkHTTPException 500 (StrOf e))
          end
      end
  end.

(** Stored ratings used in the examples. *)
Definition rec (slug : Py.str) (r : Q) : RatingRecord.t :=
  RatingRecord.mk "id" slug r None None.

(** The statistics of one slug, read off the records: the number of its
    records and the rounded mean of their ratings. *)
Definition stats_for (rs : list RatingRecord.t) (slug : Py.str)
  : CountryRatingStats.t :=
  CountryRatingStats.mk slug
    (Z.of_nat (List.length (RatingRecord.ratings_of slug rs)))
    (Mongo.round (Mongo.mean (RatingRecord.ratings_of slug rs)) 3).

(** The same, as the dict the projection stage yields. *)
Definition stats_doc (rs : list RatingRecord.t) (slug : Py.str)
  : Mongo.document :=
  Mongo.mkdoc None (Some slug) None
    (Some (Z.of_nat (List.length (RatingRecord.ratings_of slug rs))))
    (Some (Mongo.round (Mongo.mean (RatingRecord.ratings_of slug rs)) 3)).

(** [a] is [m] rounded to three decimal places: a whole number of
    thousandths, at most half a thousandth away from [m]. *)
Definition rounded3 (a m : Q) : Prop :=
  (exists k : Z, a == k # 1000)%Q /\ (Qabs (a - m) <= 1 # 2000)%Q.

(** Descending order of [avg] between an earlier and a later dict. *)
Definition doc_desc (a b : Mongo.document) : Prop :=
  Mongo.avg_leb (Mongo.avg b) (Mongo.avg a) = true.

(** What the optional [$limit] stage does to a result sequence. *)
Definition cut {A : Type} (limit : option Z) (l : list A) : list A :=
  match limit with
  | Some n => if (0 <? n)%Z then firstn (Z.to_nat n) l else l
  | None => l
  end.

(** Descending order of [avg] between an earlier and a later element. *)
Definition avg_desc (a b : CountryRatingStats.t) : Prop :=
  (CountryRatingStats.avg b <= CountryRatingStats.avg a)%Q.

(** The slug alphabet of the data model: [a-z], [0-9] and the hyphen. *)
Definition slug_char (ch : Py.char) : bool :=
  Py.between 97 122 ch || Py.between 48 57 ch
  || Py.char_eqb ch CountryRatingIn.hyphen.

(** The ASCII characters, U+0000..U+007F. *)
Definition isascii (ch : Py.char) : bool := Py.between 0 127 ch.

(** What the validator lets through: alphanumeric or hyphen. *)
Definition slug_ok (ch : Py.char) : bool :=
  Py.isalnum ch || Py.char_eqb ch CountryRatingIn.hyphen.

(** A validation error has an entry located at [field]. *)
Definition rejected_on (field : string) (res : ValidationError + CountryRatingIn.t)
  : Prop :=
  exists errs, res = inl errs /\ In field (map loc errs).

(** A slug is in normalized form when the validator produced it. *)
Definition normalized (slug : Py.str) : Prop :=
  exists v, CountryRatingIn.validate_slug v = inr slug.


(** The sum of the counts of a summary. *)
Definition total_count (l : list CountryRatingStats.t) : Z :=
  fold_right Z.add 0%Z (map CountryRatingStats.count l).

(** ** The diagnostic endpoint

    [test_database] builds texts with characters that [Py.char] does
    not cover and only slices and joins them, so a text is here the
    plain sequence of its code points. *)
Module Diag.

Local Open Scope list_scope.

Definition text : Type := list N.

(** An ASCII literal. *)
Definition lit (s : string) : text := map N_of_ascii (list_ascii_of_string s).

(** U+2705, U+274C and U+26A0 U+FE0F, the marks of the status texts. *)
Definition check_mark : text := [9989%N].
Definition cross_mark : text := [10060%N].
Definition warning_sign : text := [9888%N; 65039%N].

(** An exception, with the text [str(e)] gives. *)
Record PyException : Type := mkPyException { str_of : text }.

(** What reading an attribute of an object does: the object lacks it
    ([hasattr] is false), it has a value, or the read raises. *)
Inductive attribute : Type :=
| Absent
| Present (v : text)
| Raising (e : PyException).

(** The database handle as [test_database] uses it. *)
Record Handle : Type := mkHandle {
  name : attribute;
  list_collection_names : PyException + list text
}.

(** The [response] dict. *)
Record Response : Type := mkResponse {
  backend : text;
  database : text;
  database_url : option text;
  database_name : option text;
  connection_status : text;
  collections : list text
}.

Definition set_database (v : text) (r : Response) : Response :=
  mkResponse (backend r) v (database_url r) (database_name r)
             (connection_status r) (collections r).

Definition set_database_url (v : option text) (r : Response) : Response :=
  mkResponse (backend r) (database r) v (database_name r)
             (connection_status r) (collections r).

Definition set_database_name (v : option text) (r : Response) : Response :=
  mkResponse (backend r) (database r) (database_url r) v
             (connection_status r) (collections r).

Definition set_connection_status (v : text) (r : Response) : Response :=
  mkResponse (backend r) (database r) (database_url r) (database_name r)
             v (collections r).

Definition set_collections (v : list text) (r : Response) : Response :=
  mkResponse (backend r) (database r) (database_url r) (database_name r)
             (connection_status r) v.

(** Lines 59-66. *)
Definition initial : Response :=
  mkResponse (check_mark ++ lit " Running")
             (cross_mark ++ lit " Not Available")
             None None (lit "Not Connected") [].

(** Lines 70-80, the branch [db is not None]: the dict as the branch
    leaves it, and the exception that escapes it, if any. *)
Definition connected (h : Handle) (response : Response)
  : option PyException * Response :=
  let response := set_database (check_mark ++ lit " Available") response in
  let response :=
    set_database_url (Some (check_mark ++ lit " Configured")) response in
  match name h with
  | Raising e => (Some e, response)
  | attr =>
      let response :=
        set_database_name
          (Some (match attr with
                 | Present v => v
                 | _ => check_mark ++ lit " Connected"
                 end)) response in
      let response := set_connection_status (lit "Connected") response in
      match list_collection_names h with
      | inr names =>
          let response := set_collections (firstn 10 names) response in
          (None,
           set_database (check_mark ++ lit " Connected & Working") response)
      | inl e =>
          (None,
           set_database (warning_sign ++ lit "  Connected but Error: "
                         ++ firstn 50 (str_of e)) response)
      end
  end.

(** Truth value of what [os.getenv] returns. *)
Definition truthy (v : option text) : bool :=
  match v with
  | Some (_ :: _) => true
  | _ => false
  end.

Definition set_or_not (v : option text) : text :=
  if truthy v then check_mark ++ lit " Set" else cross_mark ++ lit " Not Set".

(** [test_database], lines 56-91. *)
Definition test_database (db : option Handle)
    (getenv : string -> option text) : Response :=
  let response := initial in
  let '(raised, response) :=
    match db with
    | Some h => connected h response
    | None =>
        (None,
         set_database (warning_sign ++ lit "  Available but not initialized")
                      response)
    end in
  let response :=
    match raised with
    | Some e =>
        set_database (cross_mark ++ lit " Error: " ++ firstn 50 (str_of e))
                     response
    | None => response
    end in
  let response :=
    set_database_url (Some (set_or_not (getenv "DATABASE_URL"))) response in
  let response :=
    set_database_name (Some (set_or_not (getenv "DATABASE_NAME"))) response in
  response.

End Diag.

(** * Properties *)

(** ** Characters *)

Ltac by_char ch :=
  destruct ch as [[[] [] [] [] [] [] [] []]|]; vm_compute;
  try reflexivity; try discriminate; auto.

Lemma lower_char_idem ch : Py.lower_char (Py.lower_char ch) = Py.lower_char ch.
Proof. by_char ch. Qed.

Lemma ascii_lower_not_upper ch :
  isascii (Py.lower_char ch) = true -> Py.isupper (Py.lower_char ch) = false.
Proof. by_char ch. Qed.

Lemma ord_inj a b : Py.ord a = Py.ord b -> a = b.
Proof.
  destruct a as [x|], b as [y|]; simpl; intros H.
  - f_equal. rewrite <- (ascii_N_embedding x), <- (ascii_N_embedding y).
    now rewrite H.
  - pose proof (N_ascii_bounded x). lia.
  - pose proof (N_ascii_bounded y). lia.
  - reflexivity.
Qed.

Lemma char_eqb_eq a b : Py.char_eqb a b = true <-> a = b.
Proof.
  unfold Py.char_eqb. rewrite N.eqb_eq. split; [apply ord_inj | now intros ->].
Qed.

Lemma eqb_eq s t : Py.eqb s t = true <-> s = t.
Proof.
  revert t. induction s as [|a r IH]; intros [|b r']; simpl;
    try (split; [discriminate | discriminate]); [tauto|].
  rewrite andb_true_iff, char_eqb_eq, IH. split.
  - intros [-> ->]. reflexivity.
  - intros [= -> ->]. auto.
Qed.

Lemma eqb_refl s : Py.eqb s s = true.
Proof. now apply eqb_eq. Qed.

Lemma eqb_neq s t : Py.eqb s t = false <-> s <> t.
Proof.
  rewrite <- eqb_eq. destruct (Py.eqb s t); split; congruence.
Qed.

Lemma isspace_not_ok ch : slug_ok ch = true -> Py.isspace ch = false.
Proof. by_char ch. Qed.

Lemma ascii_lowered_ok ch :
  isascii ch = true -> Py.isupper ch = false -> slug_ok ch = slug_char ch.
Proof. by_char ch. Qed.

(** ** Strings *)

Lemma chars_lower s : Py.chars (Py.lower s) = map Py.lower_char (Py.chars s).
Proof. induction s as [|ch r IH]; simpl; [reflexivity | now rewrite IH]. Qed.

Lemma lower_idem s : Py.lower (Py.lower s) = Py.lower s.
Proof.
  induction s as [|ch r IH]; simpl; [reflexivity|].
  now rewrite lower_char_idem, IH.
Qed.

Lemma chars_nil s : Py.chars s = [] -> s = Py.EmptyStr.
Proof. destruct s; simpl; [reflexivity | discriminate]. Qed.

Lemma rstrip_id s :
  Forall (fun ch => Py.isspace ch = false) (Py.chars s) -> Py.rstrip s = s.
Proof.
  induction s as [|ch r IH]; simpl; intros H; [reflexivity|].
  inversion H as [|? ? Hch Hr]; subst.
  rewrite (IH Hr), Hch. now destruct r.
Qed.

Lemma lstrip_id s :
  Forall (fun ch => Py.isspace ch = false) (Py.chars s) -> Py.lstrip s = s.
Proof.
  destruct s as [|ch r]; simpl; intros H; [reflexivity|].
  inversion H as [|? ? Hch Hr]; subst. now rewrite Hch.
Qed.

Lemma strip_id s :
  Forall (fun ch => Py.isspace ch = false) (Py.chars s) -> Py.strip s = s.
Proof.
  intros H. unfold Py.strip. rewrite (lstrip_id s H). now apply rstrip_id.
Qed.

Lemma lower_fix_chars s :
  Py.lower s = s -> Forall (fun ch => Py.lower_char ch = ch) (Py.chars s).
Proof.
  induction s as [|ch r IH]; simpl; intros H; constructor.
  - congruence.
  - apply IH. congruence.
Qed.

(** An ASCII character of a lowercased string is not upper-case. *)
Lemma lowered_ascii_not_upper s ch :
  In ch (Py.chars (Py.lower s)) -> isascii ch = true -> Py.isupper ch = false.
Proof.
  rewrite chars_lower. intros Hin Hascii.
  apply in_map_iff in Hin as (c & <- & _). now apply ascii_lower_not_upper.
Qed.

(** ** The slug validator *)

Lemma any_filter (p : Py.char -> bool) l : Py.any (filter p l) = existsb p l.
Proof.
  induction l as [|ch r IH]; simpl; [reflexivity|].
  destruct (p ch); simpl; auto.
Qed.

(** What [validate_slug] computes, as a decision on the normalized slug. *)
Lemma validate_slug_spec v :
  let sv := Py.lower (Py.strip v) in
  CountryRatingIn.validate_slug v =
    if negb (Py.truthy sv) || existsb (fun ch => negb (slug_ok ch)) (Py.chars sv)
    then inl (mkValueError
                "country_slug must be kebab-case, alphanumeric with hyphens")
    else inr sv.
Proof.
  unfold CountryRatingIn.validate_slug. cbv zeta. now rewrite any_filter.
Qed.

Lemma validate_slug_inr v sv :
  CountryRatingIn.validate_slug v = inr sv ->
  sv = Py.lower (Py.strip v) /\ sv <> Py.EmptyStr
  /\ Forall (fun ch => slug_ok ch = true) (Py.chars sv).
Proof.
  rewrite validate_slug_spec. cbv zeta.
  destruct (negb (Py.truthy _) || existsb _ _) eqn:E; [discriminate|].
  intros [= <-]. apply orb_false_iff in E as [Ht Hex].
  repeat split.
  - intros Hs. rewrite Hs in Ht. discriminate.
  - apply Forall_forall. intros ch Hin.
    destruct (slug_ok ch) eqn:Hok; [reflexivity|].
    assert (existsb (fun ch => negb (slug_ok ch))
              (Py.chars (Py.lower (Py.strip v))) = true) as Hc.
    { apply existsb_exists. exists ch. now rewrite Hok. }
    congruence.
Qed.

Lemma validate_slug_accepts sv :
  sv <> Py.EmptyStr -> Py.lower sv = sv ->
  Forall (fun ch => slug_ok ch = true) (Py.chars sv) ->
  CountryRatingIn.validate_slug sv = inr sv.
Proof.
  intros Hne Hlow Hok. rewrite validate_slug_spec. cbv zeta.
  assert (Py.strip sv = sv) as ->.
  { apply strip_id. eapply Forall_impl; [|exact Hok].
    intros ch. apply isspace_not_ok. }
  rewrite Hlow.
  assert (Py.truthy sv = true) as -> by (destruct sv; [congruence|reflexivity]).
  assert (existsb (fun ch => negb (slug_ok ch)) (Py.chars sv) = false) as ->.
  { destruct (existsb _ _) eqn:E; [|reflexivity].
    apply existsb_exists in E as (ch & Hin & Hb).
    rewrite Forall_forall in Hok. now rewrite (Hok ch Hin) in Hb. }
  reflexivity.
Qed.

(** A normalized slug is a fixed point of the validator, of [strip] and
    of [lower]. *)
Lemma normalized_fix sv :
  normalized sv ->
  CountryRatingIn.validate_slug sv = inr sv
  /\ Py.strip sv = sv /\ Py.lower sv = sv.
Proof.
  intros [v Hv]. apply validate_slug_inr in Hv as (Heq & Hne & Hok).
  assert (Py.lower sv = sv) as Hlow by (rewrite Heq; apply lower_idem).
  repeat split; auto.
  - now apply validate_slug_accepts.
  - apply strip_id. eapply Forall_impl; [|exact Hok].
    intros ch. apply isspace_not_ok.
Qed.

Lemma validate_slug_rejects v :
  let sv := Py.lower (Py.strip v) in
  sv = Py.EmptyStr
  \/ (exists ch, In ch (Py.chars sv) /\ slug_ok ch = false) ->
  exists e, CountryRatingIn.validate_slug v = inl e.
Proof.
  cbv zeta. intros H. rewrite validate_slug_spec. cbv zeta.
  destruct H as [-> | (ch & Hin & Hb)]; simpl; [eauto|].
  assert (existsb (fun ch => negb (slug_ok ch))
            (Py.chars (Py.lower (Py.strip v))) = true) as ->.
  { apply existsb_exists. exists ch. now rewrite Hb. }
  rewrite orb_true_r. eauto.
Qed.

(** ** The model validator *)

Lemma validate_slug_error raw e :
  CountryRatingIn.validate_slug (CountryRatingIn.country_slug raw) = inl e ->
  rejected_on "country_slug" (CountryRatingIn.validate raw).
Proof.
  intros H. unfold rejected_on, CountryRatingIn.validate. rewrite H.
  eexists. split; [reflexivity|]. simpl. now left.
Qed.

Lemma check_rating_error raw e :
  CountryRatingIn.check_rating (CountryRatingIn.rating raw) = inl e ->
  loc e = "rating" ->
  rejected_on "rating" (CountryRatingIn.validate raw).
Proof.
  intros H Hloc. unfold rejected_on, CountryRatingIn.validate. rewrite H.
  destruct (CountryRatingIn.validate_slug _);
    (eexists; split; [reflexivity|]); simpl; auto.
Qed.

Lemma check_rating_inr r r' :
  CountryRatingIn.check_rating r = inr r' ->
  r' = r /\ Py.float_le r (Py.Finite 5) = true
  /\ Py.float_ge r (Py.Finite 0) = true.
Proof.
  unfold CountryRatingIn.check_rating.
  destruct (Py.float_le r (Py.Finite 5)); cbn [negb]; [|discriminate].
  destruct (Py.float_ge r (Py.Finite 0)); cbn [negb]; [|discriminate].
  intros [= <-]. auto.
Qed.

Lemma check_rating_accepts r :
  Py.float_le r (Py.Finite 5) = true -> Py.float_ge r (Py.Finite 0) = true ->
  CountryRatingIn.check_rating r = inr r.
Proof.
  intros H5 H0. unfold CountryRatingIn.check_rating. now rewrite H5, H0.
Qed.

Lemma validate_inr raw out :
  CountryRatingIn.validate raw = inr out ->
  CountryRatingIn.validate_slug (CountryRatingIn.country_slug raw)
    = inr (CountryRatingIn.country_slug out)
  /\ CountryRatingIn.check_rating (CountryRatingIn.rating raw)
    = inr (CountryRatingIn.rating out)
  /\ CountryRatingIn.user_id out = CountryRatingIn.user_id raw
  /\ CountryRatingIn.comment out = CountryRatingIn.comment raw.
Proof.
  unfold CountryRatingIn.validate.
  destruct (CountryRatingIn.validate_slug _) as [e|sv];
    destruct (CountryRatingIn.check_rating _) as [e'|r];
    try discriminate.
  intros [= <-]. simpl. auto.
Qed.

(** The slug "café", with U+00E9 as its last character. *)
Lemma cafe_accepted :
  CountryRatingIn.validate
    (CountryRatingIn.mk (String "c" (String "a" (String "f" (String "233" ""))))
                        (Py.Finite 3) None None)
  = inr (CountryRatingIn.mk
           (String "c" (String "a" (String "f" (String "233" ""))))
           (Py.Finite 3) None None).
Proof. reflexivity. Qed.

(** C1, as stated, fails: the submission with slug "café" (U+00E9 is
    outside [a-z0-9-], also after trimming and lowercasing) is not
    rejected on [country_slug]. *)
Lemma slug_alphabet_counterexample :
  ~ (forall raw : CountryRatingIn.t,
       let sv := Py.lower (Py.strip (CountryRatingIn.country_slug raw)) in
       sv = Py.EmptyStr
       \/ (exists ch, In ch (Py.chars sv) /\ slug_char ch = false) ->
       rejected_on "country_slug" (CountryRatingIn.validate raw)).
Proof.
  intros H.
  specialize (H (CountryRatingIn.mk
                   (String "c" (String "a" (String "f" (String "233" ""))))
                   (Py.Finite 3) None None)).
  cbv zeta in H.
  destruct H as (errs & Herr & _).
  - right. exists "233"%char. split; [|reflexivity].
    simpl. auto.
  - rewrite cafe_accepted in Herr. discriminate.
Qed.

(** C1, amended: a submission is rejected with a validation error on
    [country_slug] whenever its slug, trimmed and then lowercased, is
    empty or contains a character that is neither alphanumeric in the
    sense of [str.isalnum] nor a hyphen; for an ASCII character this is
    the same as lying outside [a-z0-9-].  The check reads the normalized
    slug [lower (strip v)], not the raw one. *)
Theorem slug_rejected_outside_alphabet (raw : CountryRatingIn.t) :
  let sv := Py.lower (Py.strip (CountryRatingIn.country_slug raw)) in
  sv = Py.EmptyStr
  \/ (exists ch, In ch (Py.chars sv) /\ slug_char ch = false
                 /\ (isascii ch = true \/ Py.isalnum ch = false)) ->
  rejected_on "country_slug" (CountryRatingIn.validate raw).
Proof.
  cbv zeta. intros H.
  destruct (validate_slug_rejects (CountryRatingIn.country_slug raw))
    as [e He]; [|now apply (validate_slug_error raw e)].
  cbv zeta. destruct H as [H | (ch & Hin & Hsc & Hcase)]; [now left|].
  right. exists ch. split; [exact Hin|].
  destruct Hcase as [Hascii | Halnum].
  - rewrite (ascii_lowered_ok ch Hascii); [exact Hsc|].
    now apply (lowered_ascii_not_upper
                 (Py.strip (CountryRatingIn.country_slug raw))).
  - unfold slug_ok. rewrite Halnum. simpl.
    unfold slug_char in Hsc. now apply orb_false_iff in Hsc as [_ ->].
Qed.

Lemma slug_rejected_outside_alphabet_witness :
  rejected_on "country_slug"
    (CountryRatingIn.validate
       (CountryRatingIn.mk " New Zealand " (Py.Finite 4) None None))
  /\ rejected_on "country_slug"
       (CountryRatingIn.validate
          (CountryRatingIn.mk "   " (Py.Finite 4) None None)).
Proof.
  split.
  - apply (slug_rejected_outside_alphabet
             (CountryRatingIn.mk " New Zealand " (Py.Finite 4) None None)).
    right. exists " "%char. repeat split; simpl; auto 10.
  - apply (slug_rejected_outside_alphabet
             (CountryRatingIn.mk "   " (Py.Finite 4) None None)).
    left. reflexivity.
Defined.

(** C6: a rating below 0, above 5 or not finite is rejected with a
    validation error on [rating]; a rating in the closed range from 0 to
    5 is accepted when the slug is (the bounds 0 and 5 included). *)
Theorem rating_range (raw : CountryRatingIn.t) :
  let r := CountryRatingIn.rating raw in
  (Py.float_lt r (Py.Finite 0) = true \/ Py.float_gt r (Py.Finite 5) = true
   \/ Py.isfinite r = false ->
   rejected_on "rating" (CountryRatingIn.validate raw))
  /\ (Py.float_le (Py.Finite 0) r = true -> Py.float_le r (Py.Finite 5) = true ->
      forall sv,
        CountryRatingIn.validate_slug (CountryRatingIn.country_slug raw)
          = inr sv ->
        CountryRatingIn.validate raw
          = inr (CountryRatingIn.mk sv r (CountryRatingIn.user_id raw)
                                    (CountryRatingIn.comment raw))).
Proof.
  cbv zeta. split.
  - intros H.
    destruct (CountryRatingIn.check_rating (CountryRatingIn.rating raw))
      as [e|r'] eqn:E.
    + apply (check_rating_error raw e E).
      revert E. unfold CountryRatingIn.check_rating.
      destruct (negb _); [intros [= <-]; reflexivity|].
      destruct (negb _); [intros [= <-]; reflexivity | discriminate].
    + exfalso. apply check_rating_inr in E as (_ & H5 & H0).
      destruct (CountryRatingIn.rating raw) as [q| | |]; simpl in *;
        try discriminate.
      destruct H as [H | [H | H]]; try discriminate.
      * unfold Py.float_ge in H0. simpl in H0. rewrite H0 in H. discriminate.
      * unfold Py.float_gt in H. simpl in H. rewrite H5 in H. discriminate.
  - intros H0 H5 sv Hsv. unfold CountryRatingIn.validate.
    rewrite Hsv, (check_rating_accepts _ H5 H0). reflexivity.
Qed.

Lemma rating_range_witness :
  rejected_on "rating"
    (CountryRatingIn.validate (CountryRatingIn.mk "peru" Py.NaN None None))
  /\ rejected_on "rating"
       (CountryRatingIn.validate
          (CountryRatingIn.mk "peru" (Py.Finite (51 # 10)) None None))
  /\ CountryRatingIn.validate
       (CountryRatingIn.mk " Peru" (Py.Finite 5) None (Some ("ok" : Py.str)))
     = inr (CountryRatingIn.mk "peru" (Py.Finite 5) None (Some ("ok" : Py.str)))
  /\ CountryRatingIn.validate
       (CountryRatingIn.mk "peru" (Py.Finite 0) None None)
     = inr (CountryRatingIn.mk "peru" (Py.Finite 0) None None).
Proof.
  split; [|split; [|split]].
  - apply (rating_range (CountryRatingIn.mk "peru" Py.NaN None None)).
    right. right. reflexivity.
  - apply (rating_range
             (CountryRatingIn.mk "peru" (Py.Finite (51 # 10)) None None)).
    right. left. reflexivity.
  - apply (rating_range
             (CountryRatingIn.mk " Peru" (Py.Finite 5) None (Some ("ok" : Py.str))));
      reflexivity.
  - apply (rating_range (CountryRatingIn.mk "peru" (Py.Finite 0) None None));
      reflexivity.
Defined.

(** C7: validation is idempotent: when [validate x] succeeds with the
    normalized submission [y], validating [y] again yields the same
    result as validating [x]. *)
Theorem validate_idempotent (x y : CountryRatingIn.t) :
  CountryRatingIn.validate x = inr y ->
  CountryRatingIn.validate y = CountryRatingIn.validate x.
Proof.
  intros H. rewrite H.
  apply validate_inr in H as (Hs & Hr & Hu & Hc).
  apply check_rating_inr in Hr as (Hre & H5 & H0).
  assert (normalized (CountryRatingIn.country_slug y)) as Hn by (eexists; eauto).
  apply normalized_fix in Hn as (Hfix & _ & _).
  unfold CountryRatingIn.validate. rewrite Hfix.
  rewrite Hre, (check_rating_accepts _ H5 H0). rewrite <- Hre.
  now destruct y.
Qed.

Lemma validate_idempotent_witness :
  CountryRatingIn.validate
    (CountryRatingIn.mk "united-states" (Py.Finite (9 # 2)) (Some ("u1" : Py.str)) None)
  = CountryRatingIn.validate
      (CountryRatingIn.mk "  United-States " (Py.Finite (9 # 2)) (Some ("u1" : Py.str))
                          None).
Proof.
  apply (validate_idempotent
           (CountryRatingIn.mk "  United-States " (Py.Finite (9 # 2))
                               (Some ("u1" : Py.str)) None)
           (CountryRatingIn.mk "united-states" (Py.Finite (9 # 2))
                               (Some ("u1" : Py.str)) None)).
  reflexivity.
Defined.

(** ** Grouping *)

Lemma key_eqb_eq a b : Mongo.key_eqb a b = true <-> a = b.
Proof.
  destruct a as [x|], b as [y|]; simpl; try (split; congruence).
  rewrite eqb_eq. split; congruence.
Qed.

Lemma distinct_Some l :
  exists ks, Mongo.distinct (map Some l) = map Some ks
             /\ (forall k, In k ks <-> In k l)
             /\ (forall k, hd_error l = Some k -> hd_error ks = Some k).
Proof.
  induction l as [|a r (ks & Heq & Hin & _)]; simpl.
  - exists []. simpl. repeat split; auto; discriminate.
  - exists (a :: filter (fun k => negb (Py.eqb a k)) ks).
    split; [|split].
    + rewrite Heq. simpl. f_equal.
      clear. induction ks as [|k ks IH]; simpl; [reflexivity|].
      destruct (Py.eqb a k); simpl; now rewrite IH.
    + intros k. simpl. rewrite filter_In, Hin.
      destruct (Py.eqb a k) eqn:E; simpl.
      * apply eqb_eq in E. intuition congruence.
      * intuition congruence.
    + intros k [= ->]. reflexivity.
Qed.

Lemma stored_keys rs :
  map Mongo.country_slug (RatingRecord.stored rs)
  = map Some (map RatingRecord.country_slug rs).
Proof.
  unfold RatingRecord.stored. rewrite !map_map. reflexivity.
Qed.

Lemma members_stored k rs :
  Mongo.members (Some k) (RatingRecord.stored rs)
  = RatingRecord.stored
      (filter (fun r => Py.eqb (RatingRecord.country_slug r) k) rs).
Proof.
  unfold Mongo.members, RatingRecord.stored.
  induction rs as [|r rs IH]; simpl; [reflexivity|].
  destruct (Py.eqb (RatingRecord.country_slug r) k); simpl; now rewrite IH.
Qed.

Lemma somes_Some {A : Type} (l : list A) : Mongo.somes (map Some l) = l.
Proof. induction l; simpl; congruence. Qed.

Lemma ratings_stored rs :
  map Mongo.rating (RatingRecord.stored rs)
  = map Some (map RatingRecord.rating rs).
Proof.
  unfold RatingRecord.stored. rewrite !map_map. reflexivity.
Qed.

Lemma ratings_of_nonempty rs r :
  In r rs -> RatingRecord.ratings_of (RatingRecord.country_slug r) rs <> [].
Proof.
  intros Hin Hnil. unfold RatingRecord.ratings_of in Hnil.
  apply map_eq_nil in Hnil.
  assert (In r (filter (fun r0 => Py.eqb (RatingRecord.country_slug r0)
                                    (RatingRecord.country_slug r)) rs)) as H.
  { apply filter_In. split; [exact Hin | apply eqb_refl]. }
  rewrite Hnil in H. exact H.
Qed.

(** The dict of one group after projection. *)
Lemma project_group_doc rs k :
  RatingRecord.ratings_of k rs <> [] ->
  Mongo.project
    (Mongo.mkdoc (Some k) None None
       (Some (Z.of_nat (List.length
                          (Mongo.members (Some k) (RatingRecord.stored rs)))))
       (Mongo.avg_acc
          (map Mongo.rating (Mongo.members (Some k) (RatingRecord.stored rs)))))
  = stats_doc rs k.
Proof.
  intros Hne. rewrite members_stored, ratings_stored.
  unfold Mongo.avg_acc. rewrite somes_Some.
  unfold RatingRecord.stored at 1. rewrite length_map.
  unfold stats_doc, RatingRecord.ratings_of in *. rewrite length_map.
  destruct (map RatingRecord.rating _) eqn:E; [congruence|].
  reflexivity.
Qed.

(** Grouping and projecting the stored records yields one dict per slug
    that occurs, starting with the slug of the first record. *)
Lemma group_stored rs :
  exists ks,
    map Mongo.project (Mongo.group (RatingRecord.stored rs))
    = map (stats_doc rs) ks
    /\ (forall k, In k ks <-> In k (map RatingRecord.country_slug rs))
    /\ (forall k, hd_error (map RatingRecord.country_slug rs) = Some k ->
                  hd_error ks = Some k).
Proof.
  destruct (distinct_Some (map RatingRecord.country_slug rs))
    as (ks & Heq & Hin & Hhd).
  exists ks. split; [|split; assumption].
  unfold Mongo.group. rewrite stored_keys, Heq, !map_map.
  apply map_ext_in. intros k Hk.
  apply project_group_doc.
  apply Hin, in_map_iff in Hk as (r & <- & Hr).
  now apply ratings_of_nonempty.
Qed.

Lemma of_dict_stats_doc rs k :
  CountryRatingStats.of_dict (stats_doc rs k) = inr (stats_for rs k).
Proof. reflexivity. Qed.

(** ** Sorting *)

Lemma avg_leb_total a b :
  Mongo.avg_leb a b = false -> Mongo.avg_leb b a = true.
Proof.
  destruct a as [x|], b as [y|]; simpl; try congruence.
  intros H. apply Qle_bool_iff.
  destruct (Qlt_le_dec x y) as [Hlt|Hle]; [|exact Hle].
  apply Qlt_le_weak, Qle_bool_iff in Hlt. congruence.
Qed.

Lemma insert_desc_perm d l : Permutation (Mongo.insert_desc d l) (d :: l).
Proof.
  induction l as [|e r IH]; simpl; [reflexivity|].
  destruct (Mongo.avg_leb _ _); [reflexivity|].
  rewrite IH. apply perm_swap.
Qed.

Lemma sort_desc_perm l : Permutation (Mongo.sort_desc l) l.
Proof.
  induction l as [|d r IH]; simpl; [reflexivity|].
  unfold Mongo.sort_desc in *. simpl.
  rewrite insert_desc_perm. now constructor.
Qed.

Lemma insert_desc_hd e d l :
  doc_desc e d -> HdRel doc_desc e l -> HdRel doc_desc e (Mongo.insert_desc d l).
Proof.
  intros Hd Hl. destruct l as [|x r]; simpl.
  - now constructor.
  - destruct (Mongo.avg_leb _ _); constructor; auto.
    now inversion Hl.
Qed.

Lemma insert_desc_sorted d l :
  Sorted doc_desc l -> Sorted doc_desc (Mongo.insert_desc d l).
Proof.
  induction 1 as [|e r Hs IH Hhd]; simpl.
  - repeat constructor.
  - destruct (Mongo.avg_leb (Mongo.avg e) (Mongo.avg d)) eqn:E.
    + constructor; [now constructor|]. constructor. exact E.
    + constructor; [exact IH|].
      apply insert_desc_hd; [|exact Hhd].
      now apply avg_leb_total.
Qed.

Lemma sort_desc_sorted l : Sorted doc_desc (Mongo.sort_desc l).
Proof.
  induction l as [|d r IH]; [constructor|].
  now apply insert_desc_sorted.
Qed.

Lemma firstn_hd {A : Type} (R : A -> A -> Prop) a n l :
  HdRel R a l -> HdRel R a (firstn n l).
Proof.
  intros H. destruct n, l; simpl; try constructor. now inversion H.
Qed.

Lemma firstn_sorted {A : Type} (R : A -> A -> Prop) n l :
  Sorted R l -> Sorted R (firstn n l).
Proof.
  revert l. induction n as [|n IH]; intros l H; simpl; [constructor|].
  destruct l as [|a r]; [constructor|].
  inversion H; subst. constructor; [now apply IH | now apply firstn_hd].
Qed.

(** ** Building the response models *)

Lemma of_dicts_Forall2 ds l :
  CountryRatingStats.of_dicts ds = inr l ->
  Forall2 (fun d st => CountryRatingStats.of_dict d = inr st) ds l.
Proof.
  revert l. induction ds as [|d ds IH]; simpl; intros l.
  - intros [= <-]. constructor.
  - destruct (CountryRatingStats.of_dict d) as [e|st] eqn:E; [discriminate|].
    destruct (CountryRatingStats.of_dicts ds) as [e|l']; [discriminate|].
    intros [= <-]. constructor; auto.
Qed.

Lemma of_dicts_stats_docs rs ks :
  CountryRatingStats.of_dicts (map (stats_doc rs) ks)
  = inr (map (stats_for rs) ks).
Proof.
  induction ks as [|k ks IH]; [reflexivity|].
  cbn [map CountryRatingStats.of_dicts].
  now rewrite of_dict_stats_doc, IH.
Qed.

Lemma of_dicts_total ds :
  Forall (fun d => exists st, CountryRatingStats.of_dict d = inr st) ds ->
  exists l, CountryRatingStats.of_dicts ds = inr l.
Proof.
  induction 1 as [|d ds (st & Hd) _ (l & Hl)]; simpl.
  - eauto.
  - rewrite Hd, Hl. eauto.
Qed.

Lemma of_dicts_firstn n ds l :
  CountryRatingStats.of_dicts ds = inr l ->
  CountryRatingStats.of_dicts (firstn n ds) = inr (firstn n l).
Proof.
  revert ds l. induction n as [|n IH]; intros ds l; simpl; [reflexivity|].
  destruct ds as [|d ds]; simpl.
  - now intros [= <-].
  - destruct (CountryRatingStats.of_dict d) as [e|st]; [discriminate|].
    destruct (CountryRatingStats.of_dicts ds) as [e|l'] eqn:E; [discriminate|].
    intros [= <-]. simpl. now rewrite (IH ds l' E).
Qed.

Lemma of_dict_avg d st :
  CountryRatingStats.of_dict d = inr st ->
  Mongo.avg d = Some (CountryRatingStats.avg st).
Proof.
  unfold CountryRatingStats.of_dict.
  destruct (Mongo.country_slug d), (Mongo.count d), (Mongo.avg d);
    try discriminate.
  now intros [= <-].
Qed.

Lemma Forall2_sorted ds l :
  Forall2 (fun d st => CountryRatingStats.of_dict d = inr st) ds l ->
  Sorted doc_desc ds -> Sorted avg_desc l.
Proof.
  induction 1 as [|d st ds l Hd Hf IH]; intros Hs; [constructor|].
  inversion Hs as [|? ? Hs' Hhd]; subst. constructor; [now apply IH|].
  destruct Hf as [|d' st' ds' l' Hd' _]; constructor.
  inversion Hhd as [|? ? Hrel]; subst.
  unfold doc_desc in Hrel.
  rewrite (of_dict_avg _ _ Hd), (of_dict_avg _ _ Hd') in Hrel.
  apply Qle_bool_iff. exact Hrel.
Qed.

(** ** The summary endpoint *)

Lemma ratings_summary_cut coll limit :
  ratings_summary (Some coll) limit =
  match CountryRatingStats.of_dicts
          (cut limit (Mongo.sort_desc (map Mongo.project (Mongo.group coll))))
  with
  | inr l => inr l
  | inl e => inl (mkHTTPException 500 (StrOf e))
  end.
Proof.
  unfold ratings_summary, cut, truthy_limit.
  destruct limit as [n|]; [|reflexivity].
  destruct (0 <? n)%Z eqn:E.
  - assert ((n =? 0)%Z = false) as -> by lia. reflexivity.
  - rewrite !andb_false_r. reflexivity.
Qed.

(** The slugs of the summary, in output order, before any limit. *)
Lemma summary_docs rs :
  exists ks,
    Mongo.sort_desc (map Mongo.project (Mongo.group (RatingRecord.stored rs)))
    = map (stats_doc rs) ks
    /\ (forall k, In k ks -> In k (map RatingRecord.country_slug rs)).
Proof.
  destruct (group_stored rs) as (ks0 & Heq & Hin & _).
  rewrite Heq.
  pose proof (sort_desc_perm (map (stats_doc rs) ks0)) as Hp.
  apply Permutation_map_inv in Hp as (ks & Hks & Hperm).
  exists ks. split; [exact Hks|].
  intros k Hk. apply Hin. eapply Permutation_in; [|exact Hk].
  now apply Permutation_sym.
Qed.

Lemma ratings_summary_full rs :
  exists ks,
    ratings_summary (Some (RatingRecord.stored rs)) None
    = inr (map (stats_for rs) ks)
    /\ (forall k, In k ks -> In k (map RatingRecord.country_slug rs))
    /\ Sorted avg_desc (map (stats_for rs) ks).
Proof.
  destruct (summary_docs rs) as (ks & Heq & Hin).
  exists ks. rewrite ratings_summary_cut. simpl. rewrite Heq.
  rewrite of_dicts_stats_docs. split; [reflexivity|]. split; [exact Hin|].
  apply (Forall2_sorted (map (stats_doc rs) ks)).
  - apply of_dicts_Forall2, of_dicts_stats_docs.
  - rewrite <- Heq. apply sort_desc_sorted.
Qed.

Lemma ratings_summary_limit rs limit full :
  ratings_summary (Some (RatingRecord.stored rs)) None = inr full ->
  ratings_summary (Some (RatingRecord.stored rs)) limit = inr (cut limit full).
Proof.
  rewrite !ratings_summary_cut. simpl.
  destruct (CountryRatingStats.of_dicts _) as [e|l] eqn:E; [discriminate|].
  intros [= <-]. unfold cut. destruct limit as [n|]; [|now rewrite E].
  destruct (0 <? n)%Z; [|now rewrite E].
  now rewrite (of_dicts_firstn _ _ _ E).
Qed.

Lemma In_cut {A : Type} limit (l : list A) x : In x (cut limit l) -> In x l.
Proof.
  unfold cut. destruct limit as [n|]; [|auto].
  destruct (0 <? n)%Z; [|auto].
  intros H. rewrite <- (firstn_skipn (Z.to_nat n) l).
  apply in_or_app. now left.
Qed.

(** ** Rounding *)

Lemma round_half_even_close x :
  (Qabs (inject_Z (Mongo.round_half_even x) - x) <= 1 # 2)%Q.
Proof.
  unfold Mongo.round_half_even.
  pose proof (Qfloor_le x) as Hlo. pose proof (Qlt_floor x) as Hhi.
  rewrite inject_Z_plus in Hhi. change (inject_Z 1) with 1%Q in Hhi.
  apply Qabs_Qle_condition.
  destruct (Qcompare_spec (x - inject_Z (Qfloor x)) (1 # 2)) as [He|Hl|Hg].
  - destruct (Z.even (Qfloor x)).
    + split; lra.
    + rewrite inject_Z_plus. change (inject_Z 1) with 1%Q. split; lra.
  - split; lra.
  - rewrite inject_Z_plus. change (inject_Z 1) with 1%Q. split; lra.
Qed.

Lemma round3_rounded x : rounded3 (Mongo.round x 3) x.
Proof.
  unfold rounded3, Mongo.round.
  change (10 ^ Z.of_nat 3)%Z with 1000%Z.
  change (Z.to_pos 1000) with 1000%positive.
  set (k := Mongo.round_half_even (x * inject_Z 1000)).
  split.
  - exists k. apply Qred_correct.
  - rewrite Qred_correct.
    pose proof (round_half_even_close (x * inject_Z 1000)) as H.
    fold k in H. apply Qabs_Qle_condition in H.
    apply Qabs_Qle_condition.
    assert (k # 1000 == inject_Z k * (1 # 1000))%Q as ->.
    { unfold Qeq, inject_Z. simpl. lia. }
    change (inject_Z 1000) with (1000 # 1)%Q in H.
    split; lra.
Qed.

(** ** The single-country endpoint *)

Lemma match_slug_stored slug rs :
  Mongo.match_slug slug (RatingRecord.stored rs)
  = RatingRecord.stored
      (filter (fun r => Py.eqb (RatingRecord.country_slug r) slug) rs).
Proof. apply members_stored. Qed.

Lemma ratings_of_filter slug rs :
  RatingRecord.ratings_of slug
    (filter (fun r => Py.eqb (RatingRecord.country_slug r) slug) rs)
  = RatingRecord.ratings_of slug rs.
Proof.
  unfold RatingRecord.ratings_of. f_equal.
  induction rs as [|r rs IH]; simpl; [reflexivity|].
  destruct (Py.eqb (RatingRecord.country_slug r) slug) eqn:E; simpl;
    [rewrite E, IH; reflexivity | exact IH].
Qed.

(** What [country_rating_stats] returns on a reachable store. *)
Lemma country_rating_stats_stored rs slug :
  country_rating_stats (Some (RatingRecord.stored rs)) slug
  = inr (match RatingRecord.ratings_of slug rs with
         | [] => CountryRatingStats.mk slug 0 0
         | _ :: _ => stats_for rs slug
         end).
Proof.
  unfold country_rating_stats, Mongo.aggregate. simpl.
  rewrite match_slug_stored.
  set (ms := filter _ rs).
  assert (stats_for rs slug = stats_for ms slug) as ->
    by (unfold stats_for, ms; now rewrite ratings_of_filter).
  rewrite <- (ratings_of_filter slug rs). fold ms.
  assert (forall r, In r ms -> RatingRecord.country_slug r = slug) as Hall.
  { intros r Hr. apply filter_In in Hr as [_ Hr]. now apply eqb_eq. }
  clearbody ms.
  destruct (group_stored ms) as (ks & Heq & Hin & Hhd). rewrite Heq.
  destruct ms as [|r ms'].
  - destruct ks as [|k ks']; [reflexivity|].
    exfalso. apply (Hin k). now left.
  - assert (RatingRecord.country_slug r = slug) as Hr by (apply Hall; now left).
    specialize (Hhd slug). simpl in Hhd. rewrite Hr in Hhd.
    specialize (Hhd eq_refl).
    destruct ks as [|k ks']; [discriminate|]. injection Hhd as ->.
    cbn [map]. rewrite of_dict_stats_doc.
    unfold RatingRecord.ratings_of at 1. simpl. rewrite Hr, eqb_refl.
    reflexivity.
Qed.

Lemma ratings_of_nil slug rs :
  (forall r, In r rs -> RatingRecord.country_slug r <> slug) ->
  RatingRecord.ratings_of slug rs = [].
Proof.
  intros H. unfold RatingRecord.ratings_of.
  induction rs as [|r rs IH]; simpl; [reflexivity|].
  destruct (Py.eqb (RatingRecord.country_slug r) slug) eqn:E.
  - apply eqb_eq in E. exfalso. apply (H r); [now left | exact E].
  - apply IH. intros r' Hr'. apply H. now right.
Qed.

Lemma zero_stats_when_unmatched rs slug :
  (forall r, In r rs -> RatingRecord.country_slug r <> slug) ->
  country_rating_stats (Some (RatingRecord.stored rs)) slug
  = inr (CountryRatingStats.mk slug 0 0).
Proof.
  intros H. rewrite country_rating_stats_stored.
  now rewrite (ratings_of_nil slug rs H).
Qed.

(** ** The aggregator's contract *)

(** C2: for a slug that none of the stored records carries,
    [country_rating_stats] returns the value with that slug, count 0 and
    avg 0.0, and raises nothing. *)
Theorem no_records_zero_stats (rs : list RatingRecord.t) (slug : Py.str) :
  (forall r, In r rs -> RatingRecord.country_slug r <> slug) ->
  country_rating_stats (Some (RatingRecord.stored rs)) slug
  = inr (CountryRatingStats.mk slug 0 0).
Proof. apply zero_stats_when_unmatched. Qed.

Lemma no_records_zero_stats_witness :
  country_rating_stats
    (Some (RatingRecord.stored [rec "france" 4; rec "peru" (5 # 2)])) "chile"
  = inr (CountryRatingStats.mk "chile" 0 0).
Proof.
  apply (no_records_zero_stats [rec "france" 4; rec "peru" (5 # 2)] "chile").
  intros r [<- | [<- | []]]; discriminate.
Defined.

(** C3: let [full] be the ordered sequence the pipeline yields without a
    limit stage.  Without a limit the summary is [full]; with a positive
    limit [n] it is the prefix of [full] of at most [n] elements; with a
    zero or negative limit it is [full] again. *)
Theorem summary_limit (rs : list RatingRecord.t) :
  exists full,
    CountryRatingStats.of_dicts
      (Mongo.aggregate (RatingRecord.stored rs)
                       [Mongo.Sgroup; Mongo.Sproject; Mongo.Ssort])
    = inr full
    /\ ratings_summary (Some (RatingRecord.stored rs)) None = inr full
    /\ forall n : Z,
        ((0 < n)%Z ->
         ratings_summary (Some (RatingRecord.stored rs)) (Some n)
         = inr (firstn (Z.to_nat n) full)
         /\ (Z.of_nat (List.length (firstn (Z.to_nat n) full)) <= n)%Z)
        /\ ((n <= 0)%Z ->
            ratings_summary (Some (RatingRecord.stored rs)) (Some n)
            = inr full).
Proof.
  destruct (ratings_summary_full rs) as (ks & Hfull & _ & _).
  exists (map (stats_for rs) ks).
  split; [|split; [exact Hfull|]].
  - rewrite ratings_summary_cut in Hfull. simpl in Hfull.
    unfold Mongo.aggregate. simpl.
    destruct (CountryRatingStats.of_dicts _); [discriminate|].
    now injection Hfull as ->.
  - intros n. split; intros Hn.
    + rewrite (ratings_summary_limit rs (Some n) _ Hfull). unfold cut.
      assert ((0 <? n)%Z = true) as -> by lia.
      split; [reflexivity|].
      pose proof (firstn_le_length (Z.to_nat n) (map (stats_for rs) ks)).
      lia.
    + rewrite (ratings_summary_limit rs (Some n) _ Hfull). unfold cut.
      assert ((0 <? n)%Z = false) as -> by lia. reflexivity.
Qed.

Lemma summary_limit_witness :
  ratings_summary
    (Some (RatingRecord.stored
             [rec "france" 4; rec "peru" (5 # 2); rec "france" 5]))
    (Some 1%Z)
  = inr [CountryRatingStats.mk "france" 2 (9 # 2)]
  /\ ratings_summary
       (Some (RatingRecord.stored
                [rec "france" 4; rec "peru" (5 # 2); rec "france" 5]))
       (Some (-5)%Z)
     = inr [CountryRatingStats.mk "france" 2 (9 # 2);
            CountryRatingStats.mk "peru" 1 (5 # 2)].
Proof.
  destruct (summary_limit [rec "france" 4; rec "peru" (5 # 2); rec "france" 5])
    as (full & Hfull & _ & Hn).
  vm_compute in Hfull. injection Hfull as <-.
  split.
  - destruct (Hn 1%Z) as [Hpos _].
    destruct (Hpos ltac:(lia)) as [-> _]. reflexivity.
  - destruct (Hn (-5)%Z) as [_ Hneg].
    rewrite (Hneg ltac:(lia)). reflexivity.
Defined.

(** C4: the summary is in descending order of [avg]: of two consecutive
    elements, the earlier has an [avg] at least that of the later. *)
Theorem summary_sorted (rs : list RatingRecord.t) (limit : option Z) :
  exists res,
    ratings_summary (Some (RatingRecord.stored rs)) limit = inr res
    /\ Sorted avg_desc res.
Proof.
  destruct (ratings_summary_full rs) as (ks & Hfull & _ & Hs).
  exists (cut limit (map (stats_for rs) ks)).
  split; [now apply ratings_summary_limit|].
  unfold cut. destruct limit as [n|]; [|exact Hs].
  destruct (0 <? n)%Z; [|exact Hs]. now apply firstn_sorted.
Qed.

(** C8: every element of the summary carries the slug of at least one
    stored record, and its count is the number of stored records with
    that slug, hence at least 1; a slug without records does not
    appear. *)
Theorem summary_only_rated (rs : list RatingRecord.t) (limit : option Z) :
  exists res,
    ratings_summary (Some (RatingRecord.stored rs)) limit = inr res
    /\ forall st, In st res ->
         (exists r, In r rs
                    /\ RatingRecord.country_slug r
                       = CountryRatingStats.country_slug st)
         /\ CountryRatingStats.count st
            = Z.of_nat (List.length
                          (RatingRecord.ratings_of
                             (CountryRatingStats.country_slug st) rs))
         /\ (1 <= CountryRatingStats.count st)%Z.
Proof.
  destruct (ratings_summary_full rs) as (ks & Hfull & Hin & _).
  exists (cut limit (map (stats_for rs) ks)).
  split; [now apply ratings_summary_limit|].
  intros st Hst. apply In_cut, in_map_iff in Hst as (k & <- & Hk).
  apply Hin, in_map_iff in Hk as (r & Hr & Hrin).
  simpl. split; [eauto|]. split; [reflexivity|].
  pose proof (ratings_of_nonempty rs r Hrin) as Hne. rewrite Hr in Hne.
  destruct (RatingRecord.ratings_of k rs); [congruence|]. simpl. lia.
Qed.

Lemma summary_only_rated_witness :
  exists r, In r [rec "france" 4; rec "peru" (5 # 2); rec "france" 5]
            /\ RatingRecord.country_slug r = "peru".
Proof.
  destruct (summary_only_rated
              [rec "france" 4; rec "peru" (5 # 2); rec "france" 5] None)
    as (res & Hres & Hall).
  vm_compute in Hres. injection Hres as <-.
  destruct (Hall (CountryRatingStats.mk "peru" 1 (5 # 2))) as [H _].
  - right. left. reflexivity.
  - exact H.
Defined.

(** C9: the value [country_rating_stats] returns has the requested slug
    as its [country_slug], whether or not records match it. *)
Theorem stats_slug_is_requested (rs : list RatingRecord.t) (slug : Py.str) :
  exists st,
    country_rating_stats (Some (RatingRecord.stored rs)) slug = inr st
    /\ CountryRatingStats.country_slug st = slug.
Proof.
  rewrite country_rating_stats_stored. eexists. split; [reflexivity|].
  now destruct (RatingRecord.ratings_of slug rs).
Qed.

(** The one-character slug U+211D is what the validator returns for
    it, and a record stored under it is found again. *)
Lemma double_struck_r_found :
  CountryRatingIn.validate_slug (Py.Str Py.DoubleStruckR Py.EmptyStr)
  = inr (Py.Str Py.DoubleStruckR Py.EmptyStr)
  /\ country_rating_stats
       (Some (RatingRecord.stored
                [rec (Py.Str Py.DoubleStruckR Py.EmptyStr) 4]))
       (Py.Str Py.DoubleStruckR Py.EmptyStr)
     = inr (CountryRatingStats.mk (Py.Str Py.DoubleStruckR Py.EmptyStr) 1 4).
Proof. split; reflexivity. Qed.

(** C10, as stated, fails: U+211D is an upper-case character that
    [lower] leaves as it is, so the slug made of it is in normalized
    form, and a request for it finds the record stored under it. *)
Lemma stats_slug_upper_counterexample :
  ~ (forall (rs : list RatingRecord.t) (slug : Py.str),
       Forall (fun r => normalized (RatingRecord.country_slug r)) rs ->
       (exists ch, In ch (Py.chars slug) /\ Py.isupper ch = true)
       \/ Py.strip slug <> slug ->
       country_rating_stats (Some (RatingRecord.stored rs)) slug
       = inr (CountryRatingStats.mk slug 0 0)).
Proof.
  intros H. destruct double_struck_r_found as [Hv Hfound].
  specialize (H [rec (Py.Str Py.DoubleStruckR Py.EmptyStr) 4]
                (Py.Str Py.DoubleStruckR Py.EmptyStr)).
  rewrite Hfound in H.
  assert (inr (CountryRatingStats.mk (Py.Str Py.DoubleStruckR Py.EmptyStr) 1 4)
          = (inr (CountryRatingStats.mk (Py.Str Py.DoubleStruckR Py.EmptyStr)
                                        0 0)
             : HTTPException + CountryRatingStats.t)) as Habs;
    [|discriminate Habs].
  apply H.
  - constructor; [|constructor].
    exists (Py.Str Py.DoubleStruckR Py.EmptyStr). exact Hv.
  - left. exists Py.DoubleStruckR. split; [now left | reflexivity].
Qed.

(** C10, amended: [country_rating_stats] matches its argument verbatim:
    when all stored slugs are in normalized form, a requested slug with
    a character that lowercasing changes (an upper-case character with a
    lower-case form of its own, such as A to Z), or with leading or
    trailing whitespace, matches no record and gets the zero-value
    result. *)
Theorem stats_slug_verbatim (rs : list RatingRecord.t) (slug : Py.str) :
  Forall (fun r => normalized (RatingRecord.country_slug r)) rs ->
  (exists ch, In ch (Py.chars slug) /\ Py.lower_char ch <> ch)
  \/ Py.strip slug <> slug ->
  country_rating_stats (Some (RatingRecord.stored rs)) slug
  = inr (CountryRatingStats.mk slug 0 0).
Proof.
  intros Hnorm Hraw. apply zero_stats_when_unmatched.
  intros r Hr Heq. rewrite Forall_forall in Hnorm.
  specialize (Hnorm r Hr). rewrite Heq in Hnorm.
  apply normalized_fix in Hnorm as (_ & Hstrip & Hlow).
  destruct Hraw as [(ch & Hin & Hup) | Hs]; [|now apply Hs].
  apply lower_fix_chars in Hlow. rewrite Forall_forall in Hlow.
  now apply Hup, Hlow.
Qed.

Lemma stats_slug_verbatim_witness :
  country_rating_stats
    (Some (RatingRecord.stored [rec "peru" 4; rec "new-zealand" 5])) "Peru"
  = inr (CountryRatingStats.mk "Peru" 0 0)
  /\ country_rating_stats
       (Some (RatingRecord.stored [rec "peru" 4; rec "new-zealand" 5]))
       " peru"
     = inr (CountryRatingStats.mk " peru" 0 0).
Proof.
  assert (Forall (fun r => normalized (RatingRecord.country_slug r))
                 [rec "peru" 4; rec "new-zealand" 5]) as Hn.
  { repeat constructor; [exists "Peru " | exists " NEW-Zealand"];
      reflexivity. }
  split.
  - apply (stats_slug_verbatim [rec "peru" 4; rec "new-zealand" 5] "Peru" Hn).
    left. exists (Py.Latin1 "P"). split; [now left | discriminate].
  - apply (stats_slug_verbatim [rec "peru" 4; rec "new-zealand" 5] " peru" Hn).
    right. discriminate.
Defined.

(** C5: the [avg] of every group is the arithmetic mean of the ratings
    of its records, rounded to three decimal places, in the answer of
    [country_rating_stats] and in every element of the summary; for a
    slug whose stored ratings are 1.0, 2.0 and 2.0 it is 1.667. *)
Theorem avg_rounded_mean (rs : list RatingRecord.t) :
  (forall slug, RatingRecord.ratings_of slug rs <> [] ->
     exists st,
       country_rating_stats (Some (RatingRecord.stored rs)) slug = inr st
       /\ rounded3 (CountryRatingStats.avg st)
                   (Mongo.mean (RatingRecord.ratings_of slug rs)))
  /\ (forall limit, exists res,
        ratings_summary (Some (RatingRecord.stored rs)) limit = inr res
        /\ forall st, In st res ->
             rounded3 (CountryRatingStats.avg st)
                      (Mongo.mean
                         (RatingRecord.ratings_of
                            (CountryRatingStats.country_slug st) rs)))
  /\ (forall slug, RatingRecord.ratings_of slug rs = [1; 2; 2]%Q ->
        country_rating_stats (Some (RatingRecord.stored rs)) slug
        = inr (CountryRatingStats.mk slug 3 (1667 # 1000))).
Proof.
  split; [|split].
  - intros slug Hne. rewrite country_rating_stats_stored.
    eexists. split; [reflexivity|].
    destruct (RatingRecord.ratings_of slug rs) eqn:E; [congruence|].
    simpl. rewrite E. apply round3_rounded.
  - intros limit.
    destruct (ratings_summary_full rs) as (ks & Hfull & _ & _).
    exists (cut limit (map (stats_for rs) ks)).
    split; [now apply ratings_summary_limit|].
    intros st Hst. apply In_cut, in_map_iff in Hst as (k & <- & _).
    simpl. apply round3_rounded.
  - intros slug H. rewrite country_rating_stats_stored.
    unfold stats_for. rewrite H. reflexivity.
Qed.

Lemma avg_rounded_mean_witness :
  country_rating_stats
    (Some (RatingRecord.stored
             [rec "peru" 1; rec "chile" 4; rec "peru" 2; rec "peru" 2]))
    "peru"
  = inr (CountryRatingStats.mk "peru" 3 (1667 # 1000))
  /\ exists st,
       country_rating_stats
         (Some (RatingRecord.stored
                  [rec "peru" 1; rec "chile" 4; rec "peru" 2; rec "peru" 2]))
         "chile" = inr st
       /\ rounded3 (CountryRatingStats.avg st) (Mongo.mean [4%Q]).
Proof.
  pose proof (avg_rounded_mean
                [rec "peru" 1; rec "chile" 4; rec "peru" 2; rec "peru" 2])
    as (Hone & _ & Hex).
  split.
  - apply (Hex "peru"). reflexivity.
  - apply (Hone "chile"). discriminate.
Defined.

(** ** Worked examples *)

Example stats_two_and_four :
  country_rating_stats
    (Some (RatingRecord.stored [rec "peru" 2; rec "chile" 1; rec "peru" 4]))
    "peru"
  = inr (CountryRatingStats.mk "peru" 2 3).
Proof. vm_compute. reflexivity. Qed.

Example summary_highest_first :
  ratings_summary
    (Some (RatingRecord.stored
             [rec "a" (9 # 2); rec "b" 2; rec "c" 4; rec "c" 3]))
    None
  = inr [CountryRatingStats.mk "a" 1 (9 # 2);
         CountryRatingStats.mk "c" 2 (7 # 2);
         CountryRatingStats.mk "b" 1 2].
Proof. vm_compute. reflexivity. Qed.

Example stats_unreachable_store :
  country_rating_stats None "peru" = inl unavailable
  /\ ratings_summary None (Some 3%Z) = inl unavailable.
Proof. split; reflexivity. Qed.

Example slug_normalized_before_check :
  CountryRatingIn.validate_slug "  United-States " = inr ("united-states" : Py.str).
Proof. reflexivity. Qed.

(** * Further properties of the validator *)

Lemma isspace_lower_char ch : Py.isspace (Py.lower_char ch) = Py.isspace ch.
Proof. by_char ch. Qed.

Lemma isascii_lower_char ch :
  isascii ch = true -> isascii (Py.lower_char ch) = true.
Proof. by_char ch. Qed.

Lemma slug_char_ok ch :
  slug_char ch = true -> slug_ok ch = true /\ Py.lower_char ch = ch.
Proof. by_char ch. Qed.

Lemma length_lower s : Py.len (Py.lower s) = Py.len s.
Proof. induction s; simpl; congruence. Qed.

Lemma length_lstrip s : (Py.len (Py.lstrip s) <= Py.len s)%nat.
Proof.
  induction s as [|ch r IH]; simpl; [lia|].
  destruct (Py.isspace ch); simpl; lia.
Qed.

Lemma length_rstrip s : (Py.len (Py.rstrip s) <= Py.len s)%nat.
Proof.
  induction s as [|ch r IH]; simpl; [lia|].
  destruct (Py.rstrip r); [destruct (Py.isspace ch)|]; simpl in *; lia.
Qed.

Lemma In_chars_lstrip ch s :
  In ch (Py.chars (Py.lstrip s)) -> In ch (Py.chars s).
Proof.
  induction s as [|c r IH]; simpl; [auto|].
  destruct (Py.isspace c); simpl; auto.
Qed.

Lemma In_chars_rstrip ch s :
  In ch (Py.chars (Py.rstrip s)) -> In ch (Py.chars s).
Proof.
  induction s as [|c r IH]; simpl; [auto|].
  destruct (Py.rstrip r) as [|c' r'].
  - destruct (Py.isspace c); simpl; intuition.
  - simpl in *. intuition.
Qed.

Lemma In_chars_strip ch s :
  In ch (Py.chars (Py.strip s)) -> In ch (Py.chars s).
Proof. intros H. now apply In_chars_lstrip, In_chars_rstrip. Qed.

Lemma rstrip_idem s : Py.rstrip (Py.rstrip s) = Py.rstrip s.
Proof.
  induction s as [|ch r IH]; simpl; [reflexivity|].
  destruct (Py.rstrip r) as [|c r'] eqn:E.
  - destruct (Py.isspace ch) eqn:Hs; simpl; [reflexivity | now rewrite Hs].
  - simpl in *. rewrite IH. reflexivity.
Qed.

(** What [lstrip] returns is empty or starts with a character that is
    not whitespace. *)
Lemma lstrip_head s :
  match Py.lstrip s with
  | Py.EmptyStr => True
  | Py.Str ch _ => Py.isspace ch = false
  end.
Proof.
  induction s as [|ch r IH]; simpl; [exact I|].
  destruct (Py.isspace ch) eqn:E; [exact IH | exact E].
Qed.

Lemma lstrip_rstrip_head ch r :
  Py.isspace ch = false ->
  Py.lstrip (Py.rstrip (Py.Str ch r)) = Py.rstrip (Py.Str ch r).
Proof.
  intros H. simpl. rewrite H. destruct (Py.rstrip r); simpl; now rewrite H.
Qed.

Lemma strip_idem s : Py.strip (Py.strip s) = Py.strip s.
Proof.
  unfold Py.strip. pose proof (lstrip_head s) as H.
  destruct (Py.lstrip s) as [|ch r]; [reflexivity|].
  rewrite (lstrip_rstrip_head ch r H). apply rstrip_idem.
Qed.

Lemma lstrip_lower s : Py.lstrip (Py.lower s) = Py.lower (Py.lstrip s).
Proof.
  induction s as [|ch r IH]; simpl; [reflexivity|].
  rewrite isspace_lower_char. destruct (Py.isspace ch); [exact IH | reflexivity].
Qed.

Lemma rstrip_lower s : Py.rstrip (Py.lower s) = Py.lower (Py.rstrip s).
Proof.
  induction s as [|ch r IH]; simpl; [reflexivity|].
  rewrite IH, isspace_lower_char.
  destruct (Py.rstrip r); simpl; [destruct (Py.isspace ch)|]; reflexivity.
Qed.

Lemma strip_lower s : Py.strip (Py.lower s) = Py.lower (Py.strip s).
Proof. unfold Py.strip. now rewrite lstrip_lower, rstrip_lower. Qed.

(** X1: a slug the validator returns is non-empty, holds at no
    position a whitespace character or a character that lowercasing
    would change, is unchanged by [strip] and by [lower], and is no
    longer than the input. *)
Theorem accepted_slug_invariants (v sv : Py.str) :
  CountryRatingIn.validate_slug v = inr sv ->
  sv <> Py.EmptyStr
  /\ Forall (fun ch => Py.isspace ch = false /\ Py.lower_char ch = ch)
            (Py.chars sv)
  /\ Py.strip sv = sv /\ Py.lower sv = sv
  /\ (Py.len sv <= Py.len v)%nat.
Proof.
  intros H.
  assert (normalized sv) as Hn by (exists v; exact H).
  apply normalized_fix in Hn as (_ & Hstrip & Hlow).
  apply validate_slug_inr in H as (Heq & Hne & Hok).
  repeat split; auto.
  - apply Forall_forall. intros ch Hin. split.
    + rewrite Forall_forall in Hok. now apply isspace_not_ok, Hok.
    + pose proof (lower_fix_chars sv Hlow) as Hup.
      rewrite Forall_forall in Hup. now apply Hup.
  - rewrite Heq, length_lower. unfold Py.strip.
    pose proof (length_rstrip (Py.lstrip v)).
    pose proof (length_lstrip v). lia.
Qed.

Lemma accepted_slug_invariants_witness :
  ("costa-rica" : Py.str) <> Py.EmptyStr
  /\ Forall (fun ch => Py.isspace ch = false /\ Py.lower_char ch = ch)
            (Py.chars "costa-rica")
  /\ Py.strip "costa-rica" = "costa-rica"
  /\ Py.lower "costa-rica" = "costa-rica"
  /\ (Py.len "costa-rica" <= Py.len "  Costa-RICA ")%nat.
Proof.
  apply (accepted_slug_invariants "  Costa-RICA " "costa-rica").
  reflexivity.
Defined.

(** X2: every non-empty string over [a-z0-9-] is accepted as it is; the
    position and number of hyphens are not looked at, so a slug such as
    "-" or "a--b-" passes. *)
Theorem slug_alphabet_accepted (s : Py.str) :
  s <> Py.EmptyStr ->
  Forall (fun ch => slug_char ch = true) (Py.chars s) ->
  CountryRatingIn.validate_slug s = inr s.
Proof.
  intros Hne Hall. apply validate_slug_accepts; [exact Hne| |].
  - induction s as [|ch r IH]; [congruence|]. simpl.
    inversion Hall as [|? ? Hch Hr]; subst.
    destruct (slug_char_ok ch Hch) as [_ ->]. f_equal.
    destruct r as [|c r']; [reflexivity|]. apply IH; [discriminate | exact Hr].
  - eapply Forall_impl; [|exact Hall]. intros ch Hch.
    now destruct (slug_char_ok ch Hch).
Qed.

Lemma slug_alphabet_accepted_witness :
  CountryRatingIn.validate_slug "a--b-" = inr ("a--b-" : Py.str)
  /\ CountryRatingIn.validate_slug "-" = inr ("-" : Py.str).
Proof.
  split.
  - apply (slug_alphabet_accepted "a--b-"); [discriminate|].
    repeat constructor.
  - apply (slug_alphabet_accepted "-"); [discriminate|].
    repeat constructor.
Defined.

(** X3: for an input of ASCII characters only, an accepted slug consists
    of characters of [a-z0-9-] only. *)
Theorem ascii_slug_in_alphabet (v sv : Py.str) :
  Forall (fun ch => isascii ch = true) (Py.chars v) ->
  CountryRatingIn.validate_slug v = inr sv ->
  Forall (fun ch => slug_char ch = true) (Py.chars sv).
Proof.
  intros Hascii H.
  apply validate_slug_inr in H as (Heq & _ & Hok).
  apply Forall_forall. intros ch Hin.
  rewrite Forall_forall in Hok, Hascii.
  assert (isascii ch = true) as Hch.
  { rewrite Heq, chars_lower in Hin.
    apply in_map_iff in Hin as (c & <- & Hc).
    apply isascii_lower_char, Hascii. now apply In_chars_strip. }
  rewrite <- (ascii_lowered_ok ch Hch); [now apply Hok|].
  rewrite Heq in Hin. now apply (lowered_ascii_not_upper (Py.strip v)).
Qed.

Lemma ascii_slug_in_alphabet_witness :
  Forall (fun ch => slug_char ch = true) (Py.chars "new-zealand-2").
Proof.
  apply (ascii_slug_in_alphabet " New-Zealand-2" "new-zealand-2").
  - repeat constructor.
  - reflexivity.
Defined.

(** X4: the validator's answer does not depend on surrounding whitespace
    or on letter case: trimming or lowercasing the input beforehand
    gives the same result. *)
Theorem validate_slug_insensitive (v : Py.str) :
  CountryRatingIn.validate_slug (Py.strip v) = CountryRatingIn.validate_slug v
  /\ CountryRatingIn.validate_slug (Py.lower v)
     = CountryRatingIn.validate_slug v.
Proof.
  rewrite !validate_slug_spec. cbv zeta.
  now rewrite strip_idem, strip_lower, lower_idem.
Qed.

(** X5: whitespace that is not at either end is not removed and makes
    the slug invalid: when the trimmed input still holds a whitespace
    character, the validator raises. *)
Theorem inner_whitespace_rejected (v : Py.str) :
  (exists ch, In ch (Py.chars (Py.strip v)) /\ Py.isspace ch = true) ->
  exists e, CountryRatingIn.validate_slug v = inl e.
Proof.
  intros (ch & Hin & Hsp). apply validate_slug_rejects. right.
  exists (Py.lower_char ch). split.
  - rewrite chars_lower. now apply in_map.
  - destruct (slug_ok (Py.lower_char ch)) eqn:E; [|reflexivity].
    apply isspace_not_ok in E. rewrite isspace_lower_char in E. congruence.
Qed.

Lemma inner_whitespace_rejected_witness :
  exists e, CountryRatingIn.validate_slug " New Zealand" = inl e.
Proof.
  apply (inner_whitespace_rejected " New Zealand").
  exists " "%char. split; [simpl; auto 10 | reflexivity].
Defined.

(** X6: a submission that passes validation carries a finite rating
    between 0 and 5, the one it was given, and its optional fields as
    they were given, absent ones staying absent. *)
Theorem accepted_rating_in_range (raw out : CountryRatingIn.t) :
  CountryRatingIn.validate raw = inr out ->
  (exists q, CountryRatingIn.rating out = Py.Finite q /\ (0 <= q <= 5)%Q)
  /\ CountryRatingIn.rating out = CountryRatingIn.rating raw
  /\ CountryRatingIn.user_id out = CountryRatingIn.user_id raw
  /\ CountryRatingIn.comment out = CountryRatingIn.comment raw.
Proof.
  intros H. apply validate_inr in H as (_ & Hr & Hu & Hc).
  apply check_rating_inr in Hr as (Heq & H5 & H0).
  repeat split; auto.
  rewrite Heq. destruct (CountryRatingIn.rating raw) as [q| | |];
    try discriminate.
  exists q. split; [reflexivity|].
  unfold Py.float_ge in H0. simpl in H5, H0.
  apply Qle_bool_iff in H5, H0. auto.
Qed.

Lemma accepted_rating_in_range_witness :
  (exists q, Py.Finite (7 # 2) = Py.Finite q /\ (0 <= q <= 5)%Q)
  /\ Py.Finite (7 # 2) = Py.Finite (7 # 2)
  /\ @None Py.str = None /\ Some ("fine" : Py.str) = Some ("fine" : Py.str).
Proof.
  apply (accepted_rating_in_range
           (CountryRatingIn.mk "Peru" (Py.Finite (7 # 2)) None (Some ("fine" : Py.str)))
           (CountryRatingIn.mk "peru" (Py.Finite (7 # 2)) None (Some ("fine" : Py.str)))).
  reflexivity.
Defined.

(** * Further properties of the aggregator *)

Lemma distinct_Some_nodup l :
  exists ks, Mongo.distinct (map Some l) = map Some ks
             /\ (forall k, In k ks <-> In k l)
             /\ NoDup ks.
Proof.
  induction l as [|a r (ks & Heq & Hin & Hnd)]; simpl.
  - exists []. simpl. repeat split; auto; constructor.
  - exists (a :: filter (fun k => negb (Py.eqb a k)) ks).
    split; [|split].
    + rewrite Heq. simpl. f_equal.
      clear. induction ks as [|k ks IH]; simpl; [reflexivity|].
      destruct (Py.eqb a k); simpl; now rewrite IH.
    + intros k. simpl. rewrite filter_In, Hin.
      destruct (Py.eqb a k) eqn:E; simpl.
      * apply eqb_eq in E. intuition congruence.
      * intuition congruence.
    + constructor.
      * rewrite filter_In, eqb_refl. simpl. intros [_ H]. discriminate.
      * now apply NoDup_filter.
Qed.

Lemma group_stored_nodup rs :
  exists ks,
    map Mongo.project (Mongo.group (RatingRecord.stored rs))
    = map (stats_doc rs) ks
    /\ (forall k, In k ks <-> In k (map RatingRecord.country_slug rs))
    /\ NoDup ks.
Proof.
  destruct (distinct_Some_nodup (map RatingRecord.country_slug rs))
    as (ks & Heq & Hin & Hnd).
  exists ks. split; [|split; assumption].
  unfold Mongo.group. rewrite stored_keys, Heq, !map_map.
  apply map_ext_in. intros k Hk.
  apply project_group_doc.
  apply Hin, in_map_iff in Hk as (r & <- & Hr).
  now apply ratings_of_nonempty.
Qed.

(** The unlimited summary: one element per stored slug. *)
Lemma summary_full_nodup rs :
  exists ks,
    ratings_summary (Some (RatingRecord.stored rs)) None
    = inr (map (stats_for rs) ks)
    /\ (forall k, In k ks <-> In k (map RatingRecord.country_slug rs))
    /\ NoDup ks.
Proof.
  destruct (group_stored_nodup rs) as (ks0 & Heq & Hin & Hnd).
  pose proof (sort_desc_perm (map (stats_doc rs) ks0)) as Hp.
  apply Permutation_map_inv in Hp as (ks & Hks & Hperm).
  exists ks. split; [|split].
  - rewrite ratings_summary_cut. simpl. rewrite Heq, Hks.
    now rewrite of_dicts_stats_docs.
  - intros k. rewrite <- Hin. split; apply Permutation_in;
      [now apply Permutation_sym | exact Hperm].
  - eapply Permutation_NoDup; eassumption.
Qed.

Lemma stats_for_slugs rs ks :
  map CountryRatingStats.country_slug (map (stats_for rs) ks) = ks.
Proof. rewrite map_map. simpl. apply map_id. Qed.

(** X7: without a limit, the summary lists every slug that a stored
    record carries, and lists it exactly once. *)
Theorem summary_slugs_exactly_once (rs : list RatingRecord.t) :
  exists full,
    ratings_summary (Some (RatingRecord.stored rs)) None = inr full
    /\ NoDup (map CountryRatingStats.country_slug full)
    /\ forall slug,
         In slug (map CountryRatingStats.country_slug full)
         <-> exists r, In r rs /\ RatingRecord.country_slug r = slug.
Proof.
  destruct (summary_full_nodup rs) as (ks & Hfull & Hin & Hnd).
  exists (map (stats_for rs) ks). rewrite stats_for_slugs.
  split; [exact Hfull|]. split; [exact Hnd|].
  intros slug. rewrite Hin, in_map_iff. split.
  - intros (r & Hr & Hrin). eauto.
  - intros (r & Hrin & Hr). eauto.
Qed.

Lemma indicator_sum ks c :
  NoDup ks -> In c ks ->
  fold_right Z.add 0%Z
    (map (fun k => if Py.eqb c k then 1%Z else 0%Z) ks) = 1%Z.
Proof.
  induction 1 as [|k ks Hnin Hnd IH]; simpl; [tauto|].
  intros [-> | Hin].
  - rewrite eqb_refl.
    assert (fold_right Z.add 0%Z
              (map (fun k => if Py.eqb c k then 1%Z else 0%Z) ks) = 0%Z)
      as ->; [|reflexivity].
    clear IH Hnd. induction ks as [|k ks IH]; simpl; [reflexivity|].
    destruct (Py.eqb c k) eqn:E.
    + apply eqb_eq in E. exfalso. apply Hnin. now left.
    + apply IH. intros H. apply Hnin. now right.
  - destruct (Py.eqb c k) eqn:E.
    + apply eqb_eq in E. subst. contradiction.
    + now rewrite IH.
Qed.

Lemma count_partition ks rs :
  NoDup ks ->
  (forall r, In r rs -> In (RatingRecord.country_slug r) ks) ->
  fold_right Z.add 0%Z
    (map (fun k => Z.of_nat (List.length (RatingRecord.ratings_of k rs))) ks)
  = Z.of_nat (List.length rs).
Proof.
  intros Hnd. induction rs as [|r rs IH]; intros Hcov.
  - simpl. clear. induction ks; simpl; auto.
  - assert (forall k,
              Z.of_nat (List.length (RatingRecord.ratings_of k (r :: rs)))
              = ((if Py.eqb (RatingRecord.country_slug r) k
                  then 1 else 0)
                 + Z.of_nat (List.length (RatingRecord.ratings_of k rs)))%Z)
      as Hstep.
    { intros k. unfold RatingRecord.ratings_of. cbn [filter].
      destruct (Py.eqb (RatingRecord.country_slug r) k);
        cbn [map List.length]; lia. }
    rewrite (map_ext _ _ Hstep).
    assert (forall (f g : Py.str -> Z) l,
              fold_right Z.add 0%Z (map (fun k => (f k + g k)%Z) l)
              = (fold_right Z.add 0%Z (map f l)
                 + fold_right Z.add 0%Z (map g l))%Z) as Hadd.
    { intros f g l. induction l; simpl; lia. }
    rewrite Hadd, IH by (intros r' Hr'; apply Hcov; now right).
    rewrite indicator_sum; [|exact Hnd | apply Hcov; now left].
    simpl List.length. lia.
Qed.

(** X8: the counts of the summary without a limit add up to the number
    of stored records: every record is counted in exactly one group. *)
Theorem summary_counts_add_up (rs : list RatingRecord.t) :
  exists full,
    ratings_summary (Some (RatingRecord.stored rs)) None = inr full
    /\ total_count full = Z.of_nat (List.length rs).
Proof.
  destruct (summary_full_nodup rs) as (ks & Hfull & Hin & Hnd).
  exists (map (stats_for rs) ks). split; [exact Hfull|].
  unfold total_count. rewrite map_map. simpl.
  apply count_partition; [exact Hnd|].
  intros r Hr. apply Hin. now apply in_map.
Qed.

(** X9: the two endpoints agree: every element of the summary, with any
    limit, is the value [country_rating_stats] returns for its slug. *)
Theorem summary_agrees_with_single (rs : list RatingRecord.t)
    (limit : option Z) :
  exists res,
    ratings_summary (Some (RatingRecord.stored rs)) limit = inr res
    /\ forall st, In st res ->
         country_rating_stats (Some (RatingRecord.stored rs))
                              (CountryRatingStats.country_slug st)
         = inr st.
Proof.
  destruct (summary_full_nodup rs) as (ks & Hfull & Hin & _).
  exists (cut limit (map (stats_for rs) ks)).
  split; [now apply ratings_summary_limit|].
  intros st Hst. apply In_cut, in_map_iff in Hst as (k & <- & Hk).
  apply Hin, in_map_iff in Hk as (r & Hr & Hrin).
  rewrite country_rating_stats_stored. simpl.
  pose proof (ratings_of_nonempty rs r Hrin) as Hne. rewrite Hr in Hne.
  now destruct (RatingRecord.ratings_of k rs).
Qed.

Lemma summary_agrees_with_single_witness :
  country_rating_stats
    (Some (RatingRecord.stored [rec "peru" 3; rec "chile" 4; rec "peru" 4]))
    "peru"
  = inr (CountryRatingStats.mk "peru" 2 (7 # 2)).
Proof.
  destruct (summary_agrees_with_single
              [rec "peru" 3; rec "chile" 4; rec "peru" 4] (Some 5%Z))
    as (res & Hres & Hall).
  vm_compute in Hres. injection Hres as <-.
  apply (Hall (CountryRatingStats.mk "peru" 2 (7 # 2))).
  right. left. reflexivity.
Defined.

(** ** Range of the average *)

Lemma Qsum_bounds (a b : Q) xs :
  Forall (fun x => a <= x <= b)%Q xs ->
  (a * inject_Z (Z.of_nat (List.length xs)) <= Mongo.Qsum xs
   <= b * inject_Z (Z.of_nat (List.length xs)))%Q.
Proof.
  induction 1 as [|x xs [Hlo Hhi] _ [IHlo IHhi]].
  - unfold Mongo.Qsum. cbn [List.length fold_right Z.of_nat].
    change (inject_Z 0) with 0%Q. split; lra.
  - cbn [List.length Mongo.Qsum fold_right].
    rewrite Nat2Z.inj_succ, <- Z.add_1_r, inject_Z_plus.
    change (inject_Z 1) with 1%Q. fold (Mongo.Qsum xs). split; lra.
Qed.

Lemma mean_bounds (a b : Q) xs :
  xs <> [] -> Forall (fun x => a <= x <= b)%Q xs ->
  (a <= Mongo.mean xs <= b)%Q.
Proof.
  intros Hne Hall. destruct (Qsum_bounds a b xs Hall) as [Hlo Hhi].
  assert (0 < inject_Z (Z.of_nat (List.length xs)))%Q as Hpos.
  { destruct xs; [congruence|]. unfold Qlt. simpl. lia. }
  unfold Mongo.mean. split.
  - now apply Qle_shift_div_l.
  - apply Qle_shift_div_r; [exact Hpos|]. exact Hhi.
Qed.

Lemma round_half_even_ge m y :
  (inject_Z m <= y)%Q -> (m <= Mongo.round_half_even y)%Z.
Proof.
  intros H. apply Qfloor_resp_le in H. rewrite Qfloor_Z in H.
  unfold Mongo.round_half_even.
  destruct (_ ?= _)%Q; [destruct (Z.even _)| |]; lia.
Qed.

Lemma round_half_even_le m y :
  (y <= inject_Z m)%Q -> (Mongo.round_half_even y <= m)%Z.
Proof.
  intros H. pose proof (Qfloor_resp_le _ _ H) as Hf. rewrite Qfloor_Z in Hf.
  pose proof (Qfloor_le y) as Hlo.
  assert ((y - inject_Z (Qfloor y) == 0)%Q \/ (Qfloor y < m)%Z) as Hcase.
  { destruct (Z.eq_dec (Qfloor y) m) as [He|Hn]; [left | right; lia].
    rewrite He in *. lra. }
  unfold Mongo.round_half_even.
  destruct (Qcompare_spec (y - inject_Z (Qfloor y)) (1 # 2)) as [He|Hl|Hg].
  - destruct Hcase as [H0|Hlt]; [lra|]. destruct (Z.even _); lia.
  - lia.
  - destruct Hcase as [H0|Hlt]; [lra | lia].
Qed.

Lemma round3_bounds (lo hi : Z) x :
  (inject_Z lo <= x <= inject_Z hi)%Q ->
  (inject_Z lo <= Mongo.round x 3 <= inject_Z hi)%Q.
Proof.
  intros [Hlo Hhi]. unfold Mongo.round.
  change (10 ^ Z.of_nat 3)%Z with 1000%Z.
  change (Z.to_pos 1000) with 1000%positive.
  rewrite Qred_correct.
  assert (lo * 1000 <= Mongo.round_half_even (x * inject_Z 1000))%Z as Hk1.
  { apply round_half_even_ge. rewrite inject_Z_mult.
    change (inject_Z 1000) with (1000 # 1)%Q. lra. }
  assert (Mongo.round_half_even (x * inject_Z 1000) <= hi * 1000)%Z as Hk2.
  { apply round_half_even_le. rewrite inject_Z_mult.
    change (inject_Z 1000) with (1000 # 1)%Q. lra. }
  set (k := Mongo.round_half_even (x * inject_Z 1000)) in *. clearbody k.
  unfold Qle, inject_Z. simpl. lia.
Qed.

(** X10: when every stored rating lies between 0 and 5, as the validator
    guarantees for what it accepts, every [avg] either endpoint returns
    lies between 0 and 5 as well: rounding never leaves the range. *)
Theorem avg_within_rating_range (rs : list RatingRecord.t) :
  Forall (fun r => 0 <= RatingRecord.rating r <= 5)%Q rs ->
  (forall slug, exists st,
      country_rating_stats (Some (RatingRecord.stored rs)) slug = inr st
      /\ (0 <= CountryRatingStats.avg st <= 5)%Q)
  /\ (forall limit, exists res,
        ratings_summary (Some (RatingRecord.stored rs)) limit = inr res
        /\ forall st, In st res -> (0 <= CountryRatingStats.avg st <= 5)%Q).
Proof.
  intros Hall.
  assert (forall slug, RatingRecord.ratings_of slug rs <> [] ->
            (0 <= CountryRatingStats.avg (stats_for rs slug) <= 5)%Q) as Hav.
  { intros slug Hne. simpl.
    apply (round3_bounds 0 5). apply mean_bounds; [exact Hne|].
    unfold RatingRecord.ratings_of. apply Forall_forall.
    intros x Hx. apply in_map_iff in Hx as (r & <- & Hr).
    apply filter_In in Hr as [Hr _].
    rewrite Forall_forall in Hall. now apply Hall. }
  split.
  - intros slug. rewrite country_rating_stats_stored.
    eexists. split; [reflexivity|].
    destruct (RatingRecord.ratings_of slug rs) eqn:E.
    + simpl. split; discriminate.
    + apply Hav. congruence.
  - intros limit.
    destruct (summary_full_nodup rs) as (ks & Hfull & Hin & _).
    exists (cut limit (map (stats_for rs) ks)).
    split; [now apply ratings_summary_limit|].
    intros st Hst. apply In_cut, in_map_iff in Hst as (k & <- & Hk).
    apply Hin, in_map_iff in Hk as (r & Hr & Hrin).
    apply Hav. rewrite <- Hr. now apply ratings_of_nonempty.
Qed.

Lemma avg_within_rating_range_witness :
  exists st,
    country_rating_stats
      (Some (RatingRecord.stored [rec "peru" 5; rec "peru" 5; rec "chile" 0]))
      "peru" = inr st
    /\ (0 <= CountryRatingStats.avg st <= 5)%Q.
Proof.
  apply (avg_within_rating_range
           [rec "peru" 5; rec "peru" 5; rec "chile" 0]).
  repeat constructor; simpl; discriminate.
Defined.

(** ** Limits *)

(** X11: with a positive limit [n] the summary has [min n g] elements,
    where [g] is the number of groups; with a limit of at least [g] it
    holds the same elements as without a limit. *)
Theorem limited_summary_length (rs : list RatingRecord.t) (n : Z) :
  (0 < n)%Z ->
  exists full res,
    ratings_summary (Some (RatingRecord.stored rs)) None = inr full
    /\ ratings_summary (Some (RatingRecord.stored rs)) (Some n) = inr res
    /\ List.length res = Nat.min (Z.to_nat n) (List.length full)
    /\ ((Z.of_nat (List.length full) <= n)%Z -> Permutation res full).
Proof.
  intros Hn.
  destruct (summary_full_nodup rs) as (ks & Hfull & _ & _).
  exists (map (stats_for rs) ks), (firstn (Z.to_nat n) (map (stats_for rs) ks)).
  split; [exact Hfull|]. split; [|split].
  - rewrite (ratings_summary_limit rs (Some n) _ Hfull). unfold cut.
    now assert ((0 <? n)%Z = true) as -> by lia.
  - apply length_firstn.
  - intros Hle. rewrite firstn_all2 by lia. reflexivity.
Qed.

Lemma limited_summary_length_witness :
  exists full res,
    ratings_summary
      (Some (RatingRecord.stored [rec "peru" 3; rec "chile" 4; rec "peru" 4]))
      None = inr full
    /\ ratings_summary
         (Some (RatingRecord.stored
                  [rec "peru" 3; rec "chile" 4; rec "peru" 4]))
         (Some 7%Z) = inr res
    /\ List.length res = Nat.min (Z.to_nat 7) (List.length full)
    /\ ((Z.of_nat (List.length full) <= 7)%Z -> Permutation res full).
Proof.
  apply (limited_summary_length
           [rec "peru" 3; rec "chile" 4; rec "peru" 4] 7).
  reflexivity.
Defined.

Lemma avg_desc_trans a b c : avg_desc a b -> avg_desc b c -> avg_desc a c.
Proof. unfold avg_desc. intros H1 H2. eapply Qle_trans; eassumption. Qed.

Lemma sorted_head_max a l st :
  Sorted avg_desc (a :: l) -> In st (a :: l) ->
  (CountryRatingStats.avg st <= CountryRatingStats.avg a)%Q.
Proof.
  intros Hs [<- | Hin]; [apply Qle_refl|].
  apply Sorted_extends in Hs; [|exact avg_desc_trans].
  rewrite Forall_forall in Hs. now apply Hs.
Qed.

(** X12: on a store with at least one record, a limit of 1 yields
    exactly one element, and no group has a higher [avg] than it. *)
Theorem limit_one_is_top (rs : list RatingRecord.t) :
  rs <> [] ->
  exists top full,
    ratings_summary (Some (RatingRecord.stored rs)) None = inr full
    /\ ratings_summary (Some (RatingRecord.stored rs)) (Some 1%Z) = inr [top]
    /\ forall st, In st full ->
         (CountryRatingStats.avg st <= CountryRatingStats.avg top)%Q.
Proof.
  intros Hne.
  destruct (ratings_summary_full rs) as (ks0 & Hfull0 & _ & Hsorted).
  destruct (summary_full_nodup rs) as (ks & Hfull & Hin & _).
  assert (map (stats_for rs) ks0 = map (stats_for rs) ks) as Heq by congruence.
  rewrite Heq in Hsorted. clear Heq Hfull0 ks0.
  destruct ks as [|k ks'].
  - destruct rs as [|r rs']; [congruence|]. exfalso.
    apply (Hin (RatingRecord.country_slug r)). now left.
  - exists (stats_for rs k), (map (stats_for rs) (k :: ks')).
    split; [exact Hfull|]. split.
    + now rewrite (ratings_summary_limit rs (Some 1%Z) _ Hfull).
    + intros st Hst. now apply (sorted_head_max _ (map (stats_for rs) ks')).
Qed.

Lemma limit_one_is_top_witness :
  exists top full,
    ratings_summary
      (Some (RatingRecord.stored [rec "peru" 3; rec "chile" 4; rec "peru" 4]))
      None = inr full
    /\ ratings_summary
         (Some (RatingRecord.stored
                  [rec "peru" 3; rec "chile" 4; rec "peru" 4]))
         (Some 1%Z) = inr [top]
    /\ forall st, In st full ->
         (CountryRatingStats.avg st <= CountryRatingStats.avg top)%Q.
Proof.
  apply (limit_one_is_top
           [rec "peru" 3; rec "chile" 4; rec "peru" 4]).
  discriminate.
Defined.

(** ** Dependence on the stored records *)

Lemma ratings_of_perm slug rs rs' :
  Permutation rs rs' ->
  Permutation (RatingRecord.ratings_of slug rs)
              (RatingRecord.ratings_of slug rs').
Proof.
  unfold RatingRecord.ratings_of. intros H. apply Permutation_map.
  induction H as [|r l l' _ IH|a b l|l l' l'' _ IH1 _ IH2]; simpl.
  - constructor.
  - destruct (Py.eqb _ _); [now constructor | exact IH].
  - destruct (Py.eqb (RatingRecord.country_slug a) slug),
             (Py.eqb (RatingRecord.country_slug b) slug);
      try reflexivity. apply perm_swap.
  - now rewrite IH1.
Qed.

Lemma Qsum_perm xs ys : Permutation xs ys -> (Mongo.Qsum xs == Mongo.Qsum ys)%Q.
Proof.
  unfold Mongo.Qsum.
  induction 1 as [|x l l' _ IH|a b l|l l' l'' _ IH1 _ IH2]; simpl.
  - reflexivity.
  - now rewrite IH.
  - ring.
  - now rewrite IH1.
Qed.

Lemma round_half_even_comp x y :
  (x == y)%Q -> Mongo.round_half_even x = Mongo.round_half_even y.
Proof.
  intros H. unfold Mongo.round_half_even.
  rewrite (Qfloor_comp x y H).
  assert ((x - inject_Z (Qfloor y) ?= 1 # 2)%Q
          = (y - inject_Z (Qfloor y) ?= 1 # 2)%Q) as ->; [|reflexivity].
  apply Qcompare_comp; [now rewrite H | reflexivity].
Qed.

Lemma round_comp x y n : (x == y)%Q -> Mongo.round x n = Mongo.round y n.
Proof.
  intros H. unfold Mongo.round. cbv zeta.
  rewrite (round_half_even_comp (x * inject_Z (10 ^ Z.of_nat n))
                                (y * inject_Z (10 ^ Z.of_nat n)));
    [reflexivity|].
  now rewrite H.
Qed.

Lemma stats_for_perm rs rs' slug :
  Permutation rs rs' -> stats_for rs slug = stats_for rs' slug.
Proof.
  intros H. pose proof (ratings_of_perm slug rs rs' H) as Hp.
  unfold stats_for. f_equal.
  - now rewrite (Permutation_length Hp).
  - apply round_comp. unfold Mongo.mean.
    now rewrite (Qsum_perm _ _ Hp), (Permutation_length Hp).
Qed.

(** X13: what [country_rating_stats] returns does not depend on the
    order in which the records were stored. *)
Theorem stats_order_independent (rs rs' : list RatingRecord.t)
    (slug : Py.str) :
  Permutation rs rs' ->
  country_rating_stats (Some (RatingRecord.stored rs)) slug
  = country_rating_stats (Some (RatingRecord.stored rs')) slug.
Proof.
  intros H. rewrite !country_rating_stats_stored. f_equal.
  pose proof (ratings_of_perm slug rs rs' H) as Hp.
  rewrite (stats_for_perm rs rs' slug H).
  destruct (RatingRecord.ratings_of slug rs),
           (RatingRecord.ratings_of slug rs'); try reflexivity.
  - apply Permutation_nil in Hp. discriminate.
  - apply Permutation_sym, Permutation_nil in Hp. discriminate.
Qed.

Lemma stats_order_independent_witness :
  country_rating_stats
    (Some (RatingRecord.stored [rec "peru" 1; rec "chile" 4; rec "peru" 2]))
    "peru"
  = country_rating_stats
      (Some (RatingRecord.stored [rec "chile" 4; rec "peru" 1; rec "peru" 2]))
      "peru".
Proof.
  apply (stats_order_independent
           [rec "peru" 1; rec "chile" 4; rec "peru" 2]
           [rec "chile" 4; rec "peru" 1; rec "peru" 2] "peru").
  apply perm_swap.
Defined.

Lemma ratings_of_app slug rs r :
  RatingRecord.ratings_of slug (rs ++ [r])
  = (RatingRecord.ratings_of slug rs
     ++ if Py.eqb (RatingRecord.country_slug r) slug
        then [RatingRecord.rating r] else [])%list.
Proof.
  unfold RatingRecord.ratings_of. rewrite filter_app, map_app. simpl.
  now destruct (Py.eqb (RatingRecord.country_slug r) slug).
Qed.

(** X14: one more stored record changes the statistics of its own slug
    only: the count of that slug grows by one (from 0 for a slug not
    seen before), and the answer for every other slug stays the same. *)
Theorem stats_after_insert (rs : list RatingRecord.t) (r : RatingRecord.t) :
  (exists st st',
      country_rating_stats (Some (RatingRecord.stored rs))
                           (RatingRecord.country_slug r) = inr st
      /\ country_rating_stats (Some (RatingRecord.stored (rs ++ [r])))
                              (RatingRecord.country_slug r) = inr st'
      /\ CountryRatingStats.count st' = (CountryRatingStats.count st + 1)%Z)
  /\ forall slug, slug <> RatingRecord.country_slug r ->
       country_rating_stats (Some (RatingRecord.stored (rs ++ [r]))) slug
       = country_rating_stats (Some (RatingRecord.stored rs)) slug.
Proof.
  split.
  - rewrite !country_rating_stats_stored. do 2 eexists.
    split; [reflexivity|]. split; [reflexivity|].
    unfold stats_for. rewrite ratings_of_app, eqb_refl.
    destruct (RatingRecord.ratings_of (RatingRecord.country_slug r) rs)
      as [|x xs].
    + reflexivity.
    + cbn [app]. cbn [CountryRatingStats.count].
      rewrite !length_cons, length_app. simpl List.length. lia.
  - intros slug Hne. rewrite !country_rating_stats_stored.
    unfold stats_for. rewrite ratings_of_app.
    assert (Py.eqb (RatingRecord.country_slug r) slug = false) as ->.
    { apply eqb_neq. congruence. }
    now rewrite app_nil_r.
Qed.

Lemma stats_after_insert_witness :
  country_rating_stats
    (Some (RatingRecord.stored ([rec "peru" 1; rec "chile" 4] ++ [rec "peru" 2])))
    "chile"
  = country_rating_stats
      (Some (RatingRecord.stored [rec "peru" 1; rec "chile" 4])) "chile".
Proof.
  apply (stats_after_insert [rec "peru" 1; rec "chile" 4] (rec "peru" 2)).
  discriminate.
Defined.

(** X15: the [count] [country_rating_stats] returns is the number of
    stored records whose slug is exactly the argument, and a count of 0
    comes with an [avg] of 0. *)
Theorem stats_count_exact (rs : list RatingRecord.t) (slug : Py.str) :
  exists st,
    country_rating_stats (Some (RatingRecord.stored rs)) slug = inr st
    /\ CountryRatingStats.count st
       = Z.of_nat
           (List.length
              (filter (fun r => Py.eqb (RatingRecord.country_slug r) slug)
                      rs))
    /\ (CountryRatingStats.count st = 0%Z -> CountryRatingStats.avg st = 0%Q).
Proof.
  rewrite country_rating_stats_stored. eexists. split; [reflexivity|].
  unfold stats_for, RatingRecord.ratings_of. rewrite length_map.
  destruct (map RatingRecord.rating _) eqn:E.
  - apply map_eq_nil in E. rewrite E. simpl. auto.
  - simpl. split; [reflexivity|].
    intros H0. apply (f_equal (@List.length Q)) in E.
    rewrite length_map in E. simpl in E. lia.
Qed.

Lemma stats_count_exact_witness :
  CountryRatingStats.avg (CountryRatingStats.mk "chile" 0 0) = 0%Q.
Proof.
  destruct (stats_count_exact [rec "peru" 1] "chile") as (st & Hst & _ & Hz).
  vm_compute in Hst. injection Hst as <-.
  apply Hz. reflexivity.
Defined.

(** X19: limits nest on the [avg] values: for limits [0 < n <= m], the
    [avg] values of the summary with limit [n] are, in order, the first
    [n] of the [avg] values of the summary with limit [m].  (Which of
    several groups of equal [avg] fills a position is not said.) *)
Theorem limits_nest (rs : list RatingRecord.t) (n m : Z) :
  (0 < n)%Z -> (n <= m)%Z ->
  exists res_m res_n,
    ratings_summary (Some (RatingRecord.stored rs)) (Some m) = inr res_m
    /\ ratings_summary (Some (RatingRecord.stored rs)) (Some n) = inr res_n
    /\ map CountryRatingStats.avg res_n
       = firstn (Z.to_nat n) (map CountryRatingStats.avg res_m).
Proof.
  intros Hn Hm.
  destruct (summary_full_nodup rs) as (ks & Hfull & _ & _).
  exists (firstn (Z.to_nat m) (map (stats_for rs) ks)),
         (firstn (Z.to_nat n) (map (stats_for rs) ks)).
  rewrite !(ratings_summary_limit rs _ _ Hfull). unfold cut.
  assert ((0 <? n)%Z = true) as -> by lia.
  assert ((0 <? m)%Z = true) as -> by lia.
  split; [reflexivity|]. split; [reflexivity|].
  rewrite <- !firstn_map, firstn_firstn. do 2 f_equal. lia.
Qed.

Lemma limits_nest_witness :
  exists res_m res_n,
    ratings_summary
      (Some (RatingRecord.stored [rec "peru" 3; rec "chile" 4; rec "fiji" 1]))
      (Some 2%Z) = inr res_m
    /\ ratings_summary
         (Some (RatingRecord.stored
                  [rec "peru" 3; rec "chile" 4; rec "fiji" 1]))
         (Some 1%Z) = inr res_n
    /\ map CountryRatingStats.avg res_n
       = firstn (Z.to_nat 1) (map CountryRatingStats.avg res_m).
Proof.
  apply (limits_nest [rec "peru" 3; rec "chile" 4; rec "fiji" 1] 1 2); lia.
Defined.

(** X20: storing the same records in another order can only reorder the
    summary: without a limit, the two summaries hold the same elements. *)
Theorem summary_order_independent (rs rs' : list RatingRecord.t) :
  Permutation rs rs' ->
  exists full full',
    ratings_summary (Some (RatingRecord.stored rs)) None = inr full
    /\ ratings_summary (Some (RatingRecord.stored rs')) None = inr full'
    /\ Permutation full full'.
Proof.
  intros H.
  destruct (summary_full_nodup rs) as (ks & Hfull & Hin & Hnd).
  destruct (summary_full_nodup rs') as (ks' & Hfull' & Hin' & Hnd').
  exists (map (stats_for rs) ks), (map (stats_for rs') ks').
  split; [exact Hfull|]. split; [exact Hfull'|].
  rewrite (map_ext _ _ (fun k => stats_for_perm rs rs' k H)).
  apply Permutation_map, NoDup_Permutation; [exact Hnd | exact Hnd'|].
  intros k. rewrite Hin, Hin'.
  split; apply Permutation_in; apply Permutation_map;
    [exact H | now apply Permutation_sym].
Qed.

Lemma summary_order_independent_witness :
  exists full full',
    ratings_summary
      (Some (RatingRecord.stored [rec "peru" 4; rec "chile" 4])) None
    = inr full
    /\ ratings_summary
         (Some (RatingRecord.stored [rec "chile" 4; rec "peru" 4])) None
       = inr full'
    /\ Permutation full full'.
Proof.
  apply (summary_order_independent [rec "peru" 4; rec "chile" 4]
                                   [rec "chile" 4; rec "peru" 4]).
  apply perm_swap.
Defined.

(** * The diagnostic endpoint *)

Lemma readable_dec (a : Diag.attribute) :
  (forall e, a <> Diag.Raising e) \/ exists e, a = Diag.Raising e.
Proof. destruct a; [left | left | right]; try discriminate; eauto. Qed.

(** X16: the response lists at most ten collection names; they are the
    first ten the store reports, and none when there is no database,
    when reading its name raises or when the listing raises. *)
Theorem test_database_collections (db : option Diag.Handle)
    (getenv : string -> option Diag.text) :
  let r := Diag.test_database db getenv in
  (List.length (Diag.collections r) <= 10)%nat
  /\ (forall h names,
        db = Some h -> (forall e, Diag.name h <> Diag.Raising e) ->
        Diag.list_collection_names h = inr names ->
        Diag.collections r = firstn 10 names)
  /\ (db = None
      \/ (exists h e, db = Some h
                      /\ (Diag.name h = Diag.Raising e
                          \/ Diag.list_collection_names h = inl e)) ->
      Diag.collections r = []).
Proof.
  cbv zeta. unfold Diag.test_database, Diag.connected.
  destruct db as [[nm lst]|]; cbn -[firstn].
  - destruct nm as [|v|e]; destruct lst as [e'|names]; cbn -[firstn];
      (split; [try lia; apply firstn_le_length|]); split;
      try (intros h names' [= <-]; cbn -[firstn]; intros Hn Hl;
           first [discriminate | now injection Hl as <-
                 | exfalso; now apply (Hn e)]);
      try (intros [H | (h & e0 & [= <-] & [H | H])]; cbn -[firstn] in *;
           first [reflexivity | discriminate]).
  - split; [lia|]. split; [discriminate | reflexivity].
Qed.

Lemma test_database_collections_witness :
  Diag.collections
    (Diag.test_database
       (Some (Diag.mkHandle (Diag.Present (Diag.lit "ratings"))
                (inr (map Diag.lit ["a"; "b"; "c"; "d"; "e"; "f"; "g"; "h";
                                    "i"; "j"; "k"; "l"]))))
       (fun _ => None))
  = map Diag.lit ["a"; "b"; "c"; "d"; "e"; "f"; "g"; "h"; "i"; "j"]
  /\ Diag.collections (Diag.test_database None (fun _ => None)) = [].
Proof.
  split.
  - destruct (test_database_collections
                (Some (Diag.mkHandle (Diag.Present (Diag.lit "ratings"))
                         (inr (map Diag.lit ["a"; "b"; "c"; "d"; "e"; "f";
                                             "g"; "h"; "i"; "j"; "k"; "l"]))))
                (fun _ => None)) as (_ & Hfirst & _).
    rewrite (Hfirst _ (map Diag.lit ["a"; "b"; "c"; "d"; "e"; "f"; "g"; "h";
                                     "i"; "j"; "k"; "l"]) eq_refl);
      [reflexivity | discriminate | reflexivity].
  - destruct (test_database_collections None (fun _ => None))
      as (_ & _ & Hnone).
    apply Hnone. left. reflexivity.
Defined.

(** X17: the fields [database_url] and [database_name] of the response
    only tell whether the environment variables DATABASE_URL and
    DATABASE_NAME hold a non-empty value; what the handle says (its
    name, "Configured") never reaches the response. *)
Theorem test_database_env_fields (db : option Diag.Handle)
    (getenv : string -> option Diag.text) :
  let r := Diag.test_database db getenv in
  Diag.database_url r
  = Some (match getenv "DATABASE_URL" with
          | Some (_ :: _) => Diag.check_mark ++ Diag.lit " Set"
          | _ => Diag.cross_mark ++ Diag.lit " Not Set"
          end)%list
  /\ Diag.database_name r
     = Some (match getenv "DATABASE_NAME" with
             | Some (_ :: _) => Diag.check_mark ++ Diag.lit " Set"
             | _ => Diag.cross_mark ++ Diag.lit " Not Set"
             end)%list.
Proof.
  cbv zeta. unfold Diag.test_database.
  destruct (match db with
            | Some h => Diag.connected h Diag.initial
            | None => _
            end) as [raised response].
  unfold Diag.set_or_not, Diag.truthy.
  split.
  - destruct raised; cbn -[firstn];
      destruct (getenv "DATABASE_URL") as [[|c t]|]; reflexivity.
  - destruct raised; cbn -[firstn];
      destruct (getenv "DATABASE_NAME") as [[|c t]|]; reflexivity.
Qed.

(** X18: the [database] text is never longer than 75 code points,
    however long an error message is; it reads "Connected & Working"
    exactly when a database is there, its name can be read and the
    listing succeeds, and [connection_status] reads "Connected" exactly
    when a database is there and its name can be read. *)
Theorem test_database_status (db : option Diag.Handle)
    (getenv : string -> option Diag.text) :
  let r := Diag.test_database db getenv in
  (List.length (Diag.database r) <= 75)%nat
  /\ (Diag.database r
      = (Diag.check_mark ++ Diag.lit " Connected & Working")%list
      <-> exists h names,
            db = Some h /\ (forall e, Diag.name h <> Diag.Raising e)
            /\ Diag.list_collection_names h = inr names)
  /\ (Diag.connection_status r = Diag.lit "Connected"
      <-> exists h, db = Some h /\ forall e, Diag.name h <> Diag.Raising e).
Proof.
  cbv zeta. unfold Diag.test_database, Diag.connected.
  destruct db as [[nm lst]|].
  - destruct nm as [|v|e]; destruct lst as [e'|names]; cbn -[firstn];
      (split; [try lia;
               try (pose proof (firstn_le_length 50 (Diag.str_of e'));
                    lia);
               try (pose proof (firstn_le_length 50 (Diag.str_of e)); lia)|]);
      split; split;
      try discriminate;
      try (intros _; reflexivity);
      try (intros _; eexists; split; [reflexivity | discriminate]);
      try (intros _; do 2 eexists; split; [reflexivity|];
           split; [discriminate | reflexivity]);
      try (intros (h & names' & [= <-] & Hn & Hl); cbn -[firstn] in *;
           first [discriminate | exfalso; now apply (Hn e)]);
      try (intros (h & [= <-] & Hn); cbn -[firstn] in *;
           exfalso; now apply (Hn e)).
  - cbn -[firstn]. split; [lia|]. split; split; try discriminate.
    + intros (h & names & H & _). discriminate.
    + intros (h & H & _). discriminate.
Qed.
